(** * axe-crawler: the bounded-depth link crawler of [src/crawler.js]

    A shallow embedding of [queueLinks] and [crawl], and the properties of
    the traversal (frontier and visited-set bookkeeping, termination,
    scheme rewriting, error propagation) proved over it.

    JavaScript [Set]s of strings are insertion-ordered lists without
    repetition; the page fetcher [axios.get], the validator [isURL] and the
    HTML parser [cheerio] are collaborators of the crawler and are
    variables of the development. *)

From Stdlib Require Import List String Ascii ZArith Bool Lia Permutation.
From Stdlib Require Import DecimalString.
From Equations Require Import Equations.
Import ListNotations.

Local Open Scope string_scope.
Local Open Scope Z_scope.
Local Open Scope list_scope.

(** ** JavaScript [Set<String>] *)

(** A [Set] iterates in insertion order, and that order decides in which
    order a frontier is fetched: a set is the list of its members in
    insertion order. *)
Module JSSet.

Definition t : Type := list string.

(** [new Set()] *)
Definition empty : t := [].

(** [s.has(x)] *)
Definition has (x : string) (s : t) : bool := existsb (String.eqb x) s.

(** [s.add(x)]: a member keeps its place, a new value goes last. *)
Definition add (x : string) (s : t) : t :=
  if has x s then s else s ++ [x].

(** [for (const x of src) dst.add(x)] *)
Definition add_all (src : list string) (dst : t) : t :=
  fold_left (fun acc x => add x acc) src dst.

(** [new Set(iterable)] *)
Definition of_list (l : list string) : t := add_all l empty.

(** [s.size] *)
Definition size (s : t) : nat := List.length s.

(** [s.difference(other)]: the members of [s] that [other] lacks, in the
    order of [s]. *)
Definition difference (s other : t) : t :=
  filter (fun x => negb (has x other)) s.

(** [[...s]] *)
Definition to_list (s : t) : list string := s.

End JSSet.

(** ** Strings *)

(** [strip_prefix p s] is the rest of [s] after its prefix [p], when [s]
    starts with [p]. *)
Fixpoint strip_prefix (p s : string) : option string :=
  match p, s with
  | EmptyString, _ => Some s
  | String _ _, EmptyString => None
  | String a p', String b s' =>
      if Ascii.eqb a b then strip_prefix p' s' else None
  end.

(** [s.replace(/^p/, r)] for a pattern [p] without metacharacters and a
    replacement [r] without [$]. *)
Definition replace_prefix (p r s : string) : string :=
  match strip_prefix p s with
  | Some rest => String.append r rest
  | None => s
  end.

(** What [/^https/] matches: the address is written with the secure
    scheme. *)
Definition secure_scheme (url : string) : bool := String.prefix "https" url.

(** [`${n}`] for an integer [n]. *)
Definition number_to_string (n : Z) : string :=
  NilZero.string_of_int (Z.to_int n).

(** ** Values of the collaborators *)

(** The response of [axios.get]: [pageContent.status] and
    [pageContent.data]. *)
Record AxiosResponse : Type := {
  status : Z;
  data : string
}.

(** One own enumerable property of the object [cheerio.load(data)('a')]:
    an anchor element has [attribs], a map from attribute names to values;
    the other properties of the selection ([length], [options], ...) have
    none. *)
Record entry : Type := {
  attribs : option (list (string * string))
}.

(** [attribs.href]: the value of the attribute, [None] for [undefined]. *)
Fixpoint lookup (name : string) (m : list (string * string)) : option string :=
  match m with
  | [] => None
  | (k, v) :: m' => if String.eqb k name then Some v else lookup name m'
  end.

(** The value [Error(message)]. *)
Inductive js_error : Type :=
  | Error (message : string).

(** Keeps the values [v] with [typeof v === 'string']. *)
Fixpoint strings (l : list (option string)) : list string :=
  match l with
  | [] => []
  | Some s :: l' => s :: strings l'
  | None :: l' => strings l'
  end.

(** ** The crawler *)

Section Crawler.

(** The state of the web and of the network, and the failure a request
    is rejected with. *)
Context {W E : Type}.

(** [axios.get(url)]: the request resolves with a response or is
    rejected, and the world moves on. *)
Variable axios_get : string -> W -> (E + AxiosResponse) * W.

(** [isURL] of the package [validator]. *)
Variable isURL : string -> bool.

(** [Object.keys(links)] mapped to [links[n]] for
    [links = cheerio.load(data)('a')]. *)
Variable cheerio_a : string -> list entry.

(** What a call ends with when it does not return: [throw e], or the
    rejection of an awaited request. *)
Inductive thrown : Type :=
| Throw (e : js_error)
| Reject (e : E).

(** Ghost record of a run, one [Batch] per round of requests and one
    [Frontier] per assignment to [links]:
    [Batch i visited fetched] are the requests issued at level [i]
    (level 0 is the request for the seed page) with their outcomes, and
    [visited] is [allLinks] at that moment (no set exists yet at level 0,
    recorded as the empty one);
    [Frontier i links] is the value [links] receives at the end of level
    [i]. *)
Inductive event : Type :=
| Batch (i : Z) (visited : JSSet.t) (fetched : list (string * (E + AxiosResponse)))
| Frontier (i : Z) (links : JSSet.t).

Record io : Type := {
  world : W;
  history : list event;
  console : list js_error
}.

(** A run starts with nothing recorded. *)
Definition start (w : W) : io :=
  {| world := w; history := []; console := [] |}.

(** Computations that read and write [io] and may end in [thrown]. *)
Definition M (A : Type) : Type := io -> (thrown + A) * io.

Definition ret {A} (a : A) : M A := fun s => (inr a, s).

Definition throw {A} (e : thrown) : M A := fun s => (inl e, s).

Definition bind {A B} (m : M A) (k : A -> M B) : M B :=
  fun s =>
    match m s with
    | (inl e, s') => (inl e, s')
    | (inr a, s') => k a s'
    end.

Local Notation "x <- m ;; k" := (bind m (fun x => k))
  (at level 61, m at next level, right associativity).
Local Notation "m ;;; k" := (bind m (fun _ => k))
  (at level 61, right associativity).

(** [console.log(e)] *)
Definition console_log (e : js_error) : M unit :=
  fun s =>
    (inr tt,
     {| world := world s; history := history s; console := console s ++ [e] |}).

(** Appends a ghost event. *)
Definition note (ev : event) : M unit :=
  fun s =>
    (inr tt,
     {| world := world s; history := history s ++ [ev]; console := console s |}).

(** *** [queueLinks] *)

(** [links[n].attribs ? links[n].attribs.href : null] for every
    property [n]. *)
Definition hrefs (links : list entry) : list (option string) :=
  map (fun n =>
         match attribs n with
         | Some a => lookup "href" a
         | None => None
         end) links.

Definition queueLinks (pageContent : AxiosResponse)
    (filterFn : string -> bool) : M JSSet.t :=
  if status pageContent =? 200 then
    let links := cheerio_a (data pageContent) in
    ret (JSSet.of_list
           (map (replace_prefix "https" "http")
                (filter filterFn (strings (hrefs links)))))
  else
    console_log
      (Error (String.append "Website returned an error: "
                            (number_to_string (status pageContent)))) ;;;
    ret JSSet.empty.

(** *** One level *)

(** [[...links].map(async (url) => ...)]: every task runs up to its
    first [await], so the requests of a level are all issued, in the
    order of the frontier, before any response is handled. *)
Fixpoint issue (urls : list string) (w : W)
    : list (string * (E + AxiosResponse)) * W :=
  match urls with
  | [] => ([], w)
  | url :: urls' =>
      let (r, w1) := axios_get url w in
      let (rs, w2) := issue urls' w1 in
      ((url, r) :: rs, w2)
  end.

(** [await Promise.all(...)]: every task resumes with its page and
    returns [queueLinks(newPage, filterFn)]; a rejected request rejects
    the whole batch.  The tasks are taken in the order they were
    started. *)
Fixpoint settle (filterFn : string -> bool)
    (rs : list (string * (E + AxiosResponse))) : M (list JSSet.t) :=
  match rs with
  | [] => ret []
  | (_, inl e) :: _ => throw (Reject e)
  | (_, inr newPage) :: rs' =>
      urlSet <- queueLinks newPage filterFn ;;
      urlSets <- settle filterFn rs' ;;
      ret (urlSet :: urlSets)
  end.

Definition fetch_all (i : Z) (allLinks : JSSet.t) (urls : list string)
    (filterFn : string -> bool) : M (list JSSet.t) :=
  fun s =>
    let (rs, w) := issue urls (world s) in
    settle filterFn rs
      {| world := w;
         history := history s ++ [Batch i allLinks rs];
         console := console s |}.

(** [newLinks.reduce((urlList, urlSet) => ..., new Set([]))]: the
    accumulator [urlList] is always a [Set], its members are added to
    the next [urlSet], which becomes the accumulator. *)
Definition newLinkSet (newLinks : list JSSet.t) : JSSet.t :=
  fold_left (fun urlList urlSet => JSSet.add_all urlList urlSet)
            newLinks JSSet.empty.

(** The body of the [for] loop after its first statement: the new
    [links] and [allLinks]. *)
Definition level (i : Z) (links allLinks : JSSet.t)
    (filterFn : string -> bool) : M (JSSet.t * JSSet.t) :=
  newLinks <- fetch_all i allLinks (JSSet.to_list links) filterFn ;;
  let links' := JSSet.difference (newLinkSet newLinks) allLinks in
  note (Frontier i links') ;;;
  ret (links', JSSet.add_all (newLinkSet newLinks) allLinks).

(** [if (links.size == 0) { i = depth; }] *)
Definition reset_i (depth i : Z) (links : JSSet.t) : Z :=
  if Nat.eqb (JSSet.size links) 0 then depth else i.

(** *** The loop and [crawl] *)

(** [for (let i = 1; i < depth; ++i) { ... }] entered with the current
    [i], [links] and [allLinks], followed by [return allLinks].  An empty
    frontier sets [i] to [depth] and the body still runs, with no request
    to issue; the record of the level keeps the [i] the iteration was
    entered with. *)
Equations? loop (depth : Z) (filterFn : string -> bool)
    (i : Z) (links allLinks : JSSet.t) : M JSSet.t
    by wf (Z.to_nat (depth - i)) lt :=
  loop depth filterFn i links allLinks with Z_lt_dec i depth => {
    | left _ =>
        bind (level i links allLinks filterFn)
             (fun r => loop depth filterFn
                            (reset_i depth i links + 1) (fst r) (snd r))
    | right _ => ret allLinks }.
Proof.
  unfold reset_i. destruct (Nat.eqb (JSSet.size links) 0); lia.
Qed.

(** [get] is the request for the seed page. *)
Definition get (url : string) : M AxiosResponse :=
  fun s =>
    let (r, w) := axios_get url (world s) in
    let s' := {| world := w;
                 history := history s ++ [Batch 0 JSSet.empty [(url, r)]];
                 console := console s |} in
    match r with
    | inl e => (inl (Reject e), s')
    | inr page => (inr page, s')
    end.

(** The default value of the parameter [depth]. *)
Definition default_depth : Z := 5.

Definition crawl (domain : string) (depth : Z)
    (filterFn : string -> bool) : M JSSet.t :=
  let url := String.append "http://" domain in
  if negb (isURL url) then
    throw (Throw (Error (String.append "Invalid url: " url)))
  else if depth =? 0 then
    ret (JSSet.of_list [url])
  else
    mainPage <- get url ;;
    allLinks <- queueLinks mainPage filterFn ;;
    let links := JSSet.of_list (JSSet.to_list allLinks) in
    note (Frontier 0 links) ;;;
    loop depth filterFn 1 links allLinks.

(** *** Observations of a run *)

(** The set [queueLinks] returns for a page. *)
Definition links_on (pageContent : AxiosResponse)
    (filterFn : string -> bool) : JSSet.t :=
  if status pageContent =? 200 then
    JSSet.of_list
      (map (replace_prefix "https" "http")
           (filter filterFn (strings (hrefs (cheerio_a (data pageContent))))))
  else JSSet.empty.

(** The pages of the requests of a batch that were not rejected. *)
Fixpoint fulfilled (rs : list (string * (E + AxiosResponse)))
    : list AxiosResponse :=
  match rs with
  | [] => []
  | (_, inr newPage) :: rs' => newPage :: fulfilled rs'
  | (_, inl _) :: rs' => fulfilled rs'
  end.

(** The level an event belongs to. *)
Definition level_of (ev : event) : Z :=
  match ev with
  | Batch i _ _ => i
  | Frontier i _ => i
  end.

(** The number of rounds of requests in a record. *)
Fixpoint rounds (h : list event) : nat :=
  match h with
  | [] => 0
  | Batch _ _ _ :: h' => S (rounds h')
  | Frontier _ _ :: h' => rounds h'
  end.

End Crawler.

(** ** Example sites *)

(** Small sites on which the crawler is run.  The parser is a table from
    the bodies of their pages to the selections [cheerio] returns for
    them; requests for addresses outside a site are rejected. *)
Module Example.

(** [<a href=...>] *)
Definition anchor (href : string) : entry :=
  {| attribs := Some [("href", href)] |}.

(** [<a name=...>], an anchor without [href]. *)
Definition named (name : string) : entry :=
  {| attribs := Some [("name", name)] |}.

(** A property of the selection that is not an element. *)
Definition property : entry := {| attribs := None |}.

(** The elements first, then [length], [options], [_root] and
    [prevObject]. *)
Definition selection (elements : list entry) : list entry :=
  elements ++ [property; property; property; property].

Definition page (body : string) : AxiosResponse :=
  {| status := 200; data := body |}.

Fixpoint find {A} (key : string) (table : list (string * A)) : option A :=
  match table with
  | [] => None
  | (k, v) :: table' => if String.eqb k key then Some v else find key table'
  end.

(** Addresses of the site. *)
Definition home : string := "http://example.com".
Definition b : string := "http://example.com/b".
Definition a : string := "http://example.com/a".
Definition c : string := "http://example.com/c".
Definition gone : string := "http://example.com/gone".

(** Pages, named after the addresses they link to. *)
Definition to_b : AxiosResponse :=
  page "<a href='http://example.com/b'>B</a>".
Definition to_home : AxiosResponse :=
  page "<a href='http://example.com'>home</a>".
Definition to_login : AxiosResponse :=
  page "<a href='httpss://example.com/login'>login</a>".
Definition to_a_c : AxiosResponse :=
  page "<a href='http://example.com/a'>A</a><a href='http://example.com/c'>C</a>".
Definition to_a_b_gone : AxiosResponse :=
  page "<a href='https://example.com/a'>A</a><a name='top'></a><a href='http://example.com/b'>B</a><a href='http://example.com/gone'>C</a>".
Definition no_link : AxiosResponse := page "<p>nothing here</p>".
Definition no_content : AxiosResponse := {| status := 204; data := "" |}.

Definition bodies : list (string * list entry) :=
  [ (data to_b, [anchor b]);
    (data to_home, [anchor home]);
    (data to_login, [anchor "httpss://example.com/login"]);
    (data to_a_c, [anchor a; anchor c]);
    (data to_a_b_gone,
     [anchor "https://example.com/a"; named "top"; anchor b; anchor gone]);
    (data no_link, []) ].

Definition cheerio_a (body : string) : list entry :=
  match find body bodies with
  | Some elements => selection elements
  | None => selection []
  end.

(** A seed needs a host. *)
Definition isURL (url : string) : bool :=
  match strip_prefix "http://" url with
  | Some host => negb (String.eqb host "")
  | None => false
  end.

Definition site : Type := list (string * (string + AxiosResponse)).

(** The world of the examples is a site that does not change. *)
Definition axios_get (url : string) (w : site)
    : (string + AxiosResponse) * site :=
  match find url w with
  | Some r => (r, w)
  | None => (inl "ENOTFOUND", w)
  end.

Definition accept_all (url : string) : bool := true.

(** The seed page links to page B only, and page B links back. *)
Definition backlink : site :=
  [ (home, inr to_b); (b, inr to_home) ].

(** The seed page has one link, written [httpss]. *)
Definition misspelt : site :=
  [ (home, inr to_login) ].

(** Three levels of pages; [c] answers 204. *)
Definition shop : site :=
  [ (home, inr to_b); (b, inr to_a_c); (a, inr to_b); (c, inr no_content) ].

(** A site with a page that leads to an address that does not answer. *)
Definition broken : site :=
  [ (home, inr to_b); (b, inr to_a_b_gone); (a, inr no_link);
    (gone, inl "ECONNRESET") ].

(** The state a call on the site [w] starts in. *)
Definition fresh (w : site) : @io site string := start w.

Definition run (w : site) (depth : Z) :=
  crawl axios_get isURL cheerio_a "example.com" depth accept_all (fresh w).

End Example.

(** * Properties *)

(** ** Sets *)

Module JSSetFacts.
Import JSSet.

Lemma has_In (x : string) (s : t) : has x s = true <-> In x s.
Proof.
  unfold has. rewrite existsb_exists. split.
  - intros [y [Hy Heq]]. apply String.eqb_eq in Heq. now subst.
  - intros Hin. exists x. split; [assumption | apply String.eqb_refl].
Qed.

Lemma has_false (x : string) (s : t) : has x s = false <-> ~ In x s.
Proof.
  rewrite <- has_In. destruct (has x s); split; congruence.
Qed.

Lemma In_add (x y : string) (s : t) : In y (add x s) <-> y = x \/ In y s.
Proof.
  unfold add. destruct (has x s) eqn:Hx.
  - apply has_In in Hx. split; [now right | intros [-> | H]; assumption].
  - rewrite in_app_iff. simpl. intuition congruence.
Qed.

Lemma NoDup_add (x : string) (s : t) : NoDup s -> NoDup (add x s).
Proof.
  intros Hs. unfold add. destruct (has x s) eqn:Hx; [assumption |].
  apply has_false in Hx.
  apply NoDup_app; [assumption | repeat constructor; intros [] | ].
  intros y Hy [<- | []]. contradiction.
Qed.

Lemma In_add_all (src : list string) (dst : t) (y : string) :
  In y (add_all src dst) <-> In y src \/ In y dst.
Proof.
  unfold add_all. revert dst.
  induction src as [| x src IH]; intros dst; simpl.
  - tauto.
  - rewrite IH, In_add. intuition congruence.
Qed.

Lemma NoDup_add_all (src : list string) (dst : t) :
  NoDup dst -> NoDup (add_all src dst).
Proof.
  unfold add_all. revert dst.
  induction src as [| x src IH]; intros dst Hd; simpl;
    [assumption | apply IH, NoDup_add, Hd].
Qed.

Lemma In_of_list (l : list string) (y : string) : In y (of_list l) <-> In y l.
Proof.
  unfold of_list. rewrite In_add_all. unfold empty. simpl. tauto.
Qed.

Lemma NoDup_of_list (l : list string) : NoDup (of_list l).
Proof. apply NoDup_add_all. constructor. Qed.

Lemma In_difference (s other : t) (y : string) :
  In y (difference s other) <-> In y s /\ ~ In y other.
Proof.
  unfold difference. rewrite filter_In, negb_true_iff, has_false. tauto.
Qed.

Lemma NoDup_difference (s other : t) : NoDup s -> NoDup (difference s other).
Proof. apply NoDup_filter. Qed.

Lemma size_0 (s : t) : Nat.eqb (size s) 0 = true <-> s = [].
Proof.
  unfold size. rewrite Nat.eqb_eq. split.
  - apply length_zero_iff_nil.
  - now intros ->.
Qed.

End JSSetFacts.

(** ** The merge of a level *)

Lemma In_merge (newLinks : list JSSet.t) (acc : JSSet.t) (url : string) :
  In url (fold_left (fun urlList urlSet => JSSet.add_all urlList urlSet)
                    newLinks acc)
  <-> In url acc \/ exists urlSet, In urlSet newLinks /\ In url urlSet.
Proof.
  revert acc. induction newLinks as [| urlSet newLinks IH]; intros acc; simpl.
  - split; [now left | intros [H | [? [[] _]]]; exact H].
  - rewrite IH, JSSetFacts.In_add_all. split.
    + intros [[H | H] | [s [Hs Hu]]]; eauto.
    + intros [H | [s [[<- | Hs] Hu]]]; eauto.
Qed.

Lemma NoDup_merge (newLinks : list JSSet.t) (acc : JSSet.t) :
  NoDup acc -> Forall (@NoDup string) newLinks ->
  NoDup (fold_left (fun urlList urlSet => JSSet.add_all urlList urlSet)
                   newLinks acc).
Proof.
  revert acc. induction newLinks as [| urlSet newLinks IH]; intros acc Hacc Hall;
    simpl; [assumption |].
  inversion Hall; subst. apply IH; [| assumption].
  now apply JSSetFacts.NoDup_add_all.
Qed.

Lemma In_newLinkSet (newLinks : list JSSet.t) (url : string) :
  In url (newLinkSet newLinks)
  <-> exists urlSet, In urlSet newLinks /\ In url urlSet.
Proof.
  unfold newLinkSet. rewrite In_merge. unfold JSSet.empty. simpl. tauto.
Qed.

(** C9. The set the [reduce] of a level builds has exactly the members of
    the sets of the pages of the level (their union); it has the same
    members in whatever order the sets of the pages are combined; and it
    holds every address once when each of those sets does, so an address
    found on several pages is one member. *)
Theorem newLinkSet_is_union (newLinks : list JSSet.t) :
  (forall url,
      In url (newLinkSet newLinks)
      <-> exists urlSet, In urlSet newLinks /\ In url urlSet)
  /\ (forall newLinks',
         Permutation newLinks newLinks' ->
         forall url,
           In url (newLinkSet newLinks) <-> In url (newLinkSet newLinks'))
  /\ (Forall (@NoDup string) newLinks -> NoDup (newLinkSet newLinks)).
Proof.
  split; [apply In_newLinkSet | split].
  - intros newLinks' Hperm url. rewrite !In_newLinkSet.
    split; intros [urlSet [Hs Hu]]; exists urlSet; split; try assumption.
    + eapply Permutation_in; eassumption.
    + eapply Permutation_in; [apply Permutation_sym |]; eassumption.
  - intros Hall. apply NoDup_merge; [constructor | assumption].
Qed.

(** Two pages that share the address [b]: the merge holds [b] once, in
    either order of the pages. *)
Lemma newLinkSet_is_union_witness :
  Permutation [["a"; "b"]; ["b"; "c"]] [["b"; "c"]; ["a"; "b"]]
  /\ Forall (@NoDup string) [["a"; "b"]; ["b"; "c"]]
  /\ (In "b" (newLinkSet [["a"; "b"]; ["b"; "c"]])
      <-> In "b" (newLinkSet [["b"; "c"]; ["a"; "b"]]))
  /\ NoDup (newLinkSet [["a"; "b"]; ["b"; "c"]]).
Proof.
  assert (Hperm : Permutation [["a"; "b"]; ["b"; "c"]] [["b"; "c"]; ["a"; "b"]])
    by apply perm_swap.
  assert (Hall : Forall (@NoDup string) [["a"; "b"]; ["b"; "c"]]).
  { repeat constructor; simpl; intuition discriminate. }
  destruct (newLinkSet_is_union [["a"; "b"]; ["b"; "c"]]) as [_ [Horder Honce]].
  split; [exact Hperm | split; [exact Hall | split]].
  - exact (Horder _ Hperm "b").
  - exact (Honce Hall).
Defined.

(** ** Links of a page *)

Lemma In_strings (l : list (option string)) (x : string) :
  In x (strings l) <-> In (Some x) l.
Proof.
  induction l as [| [y |] l IH]; simpl.
  - tauto.
  - rewrite IH. split; intros [H | H]; auto; left; congruence.
  - rewrite IH. split; [auto | intros [H | H]; [discriminate | assumption]].
Qed.

(** ** Runs of the crawler *)

Section CrawlerFacts.

Context {W E : Type}.
Variable axios_get : string -> W -> (E + AxiosResponse) * W.
Variable isURL : string -> bool.
Variable cheerio_a : string -> list entry.

Local Abbreviation queueLinks := (@queueLinks W E cheerio_a).
Local Abbreviation links_on := (links_on cheerio_a).
Local Abbreviation issue := (issue axios_get).
Local Abbreviation settle := (@settle W E cheerio_a).
Local Abbreviation level := (level axios_get cheerio_a).
Local Abbreviation loop := (loop axios_get cheerio_a).
Local Abbreviation crawl := (crawl axios_get isURL cheerio_a).
Local Abbreviation io := (@io W E).
Local Abbreviation event := (@event E).
Local Abbreviation thrown := (@thrown E).

(** [queueLinks] returns [links_on] and touches the console only. *)
Lemma queueLinks_spec (pageContent : AxiosResponse)
    (filterFn : string -> bool) (s : io) :
  exists s',
    queueLinks pageContent filterFn s = (inr (links_on pageContent filterFn), s')
    /\ world s' = world s /\ history s' = history s.
Proof.
  unfold queueLinks, links_on.
  destruct (status pageContent =? 200).
  - exists s. unfold ret. auto.
  - eexists. unfold bind, console_log, ret. simpl. split; [reflexivity |].
    simpl. auto.
Qed.

Lemma issue_targets (urls : list string) (w : W) :
  map fst (fst (issue urls w)) = urls.
Proof.
  revert w. induction urls as [| url urls IH]; intros w; simpl.
  - reflexivity.
  - destruct (axios_get url w) as [r w1].
    specialize (IH w1). destruct (issue urls w1) as [rs w2].
    simpl in *. now rewrite IH.
Qed.

(** A batch yields the sets of its pages, or is rejected with the
    failure of one of its requests. *)
Lemma settle_spec (filterFn : string -> bool)
    (rs : list (string * (E + AxiosResponse))) (s : io) :
  exists s',
    world s' = world s /\ history s' = history s /\
    ((settle filterFn rs s
      = (inr (map (fun p => links_on p filterFn) (fulfilled rs)), s')
      /\ forall url e, ~ In (url, inl e) rs)
     \/ exists url e,
          settle filterFn rs s = (inl (Reject e), s') /\ In (url, inl e) rs).
Proof.
  revert s. induction rs as [| [url [e | newPage]] rs IH]; intros s; simpl.
  - exists s. repeat split. left. split; [reflexivity | intros ? ? []].
  - exists s. repeat split. right. exists url, e. split; [reflexivity | now left].
  - destruct (queueLinks_spec newPage filterFn s) as [s1 [Hq [Hw1 Hh1]]].
    destruct (IH s1) as [s2 [Hw2 [Hh2 Hcase]]].
    exists s2. split; [congruence |]. split; [congruence |].
    destruct Hcase as [[Hs Hok] | [url' [e [Hs Hin]]]].
    + left. split.
      * unfold bind. rewrite Hq, Hs. reflexivity.
      * intros u e [Heq | Hin]; [discriminate | exact (Hok u e Hin)].
    + right. exists url', e. split; [| now right].
      unfold bind. rewrite Hq, Hs. reflexivity.
Qed.

(** What one level does to the sets and to the record of the run. *)
Lemma level_spec (i : Z) (links allLinks : JSSet.t)
    (filterFn : string -> bool) (s : io) :
  let rs := fst (issue links (world s)) in
  let N := newLinkSet (map (fun p => links_on p filterFn) (fulfilled rs)) in
  exists s',
    world s' = snd (issue links (world s)) /\
    ((exists url e,
        level i links allLinks filterFn s = (inl (Reject e), s')
        /\ In (url, inl e) rs
        /\ history s' = history s ++ [Batch i allLinks rs])
     \/ ((forall url e, ~ In (url, inl e) rs)
         /\ level i links allLinks filterFn s
            = (inr (JSSet.difference N allLinks, JSSet.add_all N allLinks), s')
         /\ history s'
            = history s ++ [Batch i allLinks rs;
                            Frontier i (JSSet.difference N allLinks)])).
Proof.
  intros rs N. subst rs N.
  destruct (issue links (world s)) as [rs w] eqn:Hi. simpl.
  set (s0 := {| world := w;
                history := history s ++ [Batch i allLinks rs];
                console := console s |}).
  assert (Hlevel : level i links allLinks filterFn s
                   = match settle filterFn rs s0 with
                     | (inl e, s') => (inl e, s')
                     | (inr newLinks, s') =>
                         (inr (JSSet.difference (newLinkSet newLinks) allLinks,
                               JSSet.add_all (newLinkSet newLinks) allLinks),
                          {| world := world s';
                             history :=
                               history s'
                               ++ [Frontier i (JSSet.difference
                                                 (newLinkSet newLinks) allLinks)];
                             console := console s' |})
                     end).
  { unfold level, fetch_all, JSSet.to_list, bind. rewrite Hi. fold s0.
    destruct (settle filterFn rs s0) as [[e | newLinks] s']; reflexivity. }
  destruct (settle_spec filterFn rs s0) as [s1 [Hw [Hh Hcase]]].
  simpl in Hw, Hh.
  destruct Hcase as [[Hs Hok] | [url [e [Hs Hin]]]]; rewrite Hs in Hlevel.
  - eexists. split; [| right; split; [exact Hok | split; [exact Hlevel |]]].
    + simpl. exact Hw.
    + simpl. rewrite Hh, <- app_assoc. reflexivity.
  - exists s1. split; [exact Hw |]. left. exists url, e. auto.
Qed.

(** The loop, one iteration at a time. *)
Lemma loop_iteration (depth : Z) (filterFn : string -> bool)
    (i : Z) (links allLinks : JSSet.t) :
  loop depth filterFn i links allLinks
  = if Z_lt_dec i depth then
      bind (level i links allLinks filterFn)
           (fun r => loop depth filterFn
                          (reset_i depth i links + 1) (fst r) (snd r))
    else ret allLinks.
Proof.
  simp loop. destruct (Z_lt_dec i depth); reflexivity.
Qed.

(** Invariants of the loop over the record of the run: [I] holds of [i],
    [links], [allLinks] and the history whenever the condition of the loop
    is evaluated, and [Q] of what the loop ends with. *)
Lemma loop_rule (depth : Z) (filterFn : string -> bool)
    (I : Z -> JSSet.t -> JSSet.t -> list event -> Prop)
    (Q : thrown + JSSet.t -> list event -> Prop) :
  (forall i links allLinks h,
      I i links allLinks h -> ~ i < depth -> Q (inr allLinks) h) ->
  (forall i links allLinks h rs url e,
      I i links allLinks h -> i < depth -> map fst rs = links ->
      In (url, inl e) rs ->
      Q (inl (Reject e)) (h ++ [Batch i allLinks rs])) ->
  (forall i links allLinks h rs,
      I i links allLinks h -> i < depth -> map fst rs = links ->
      (forall url e, ~ In (url, inl e) rs) ->
      let N := newLinkSet (map (fun p => links_on p filterFn) (fulfilled rs)) in
      I (reset_i depth i links + 1)
        (JSSet.difference N allLinks) (JSSet.add_all N allLinks)
        (h ++ [Batch i allLinks rs; Frontier i (JSSet.difference N allLinks)])) ->
  forall i links allLinks s,
    I i links allLinks (history s) ->
    Q (fst (loop depth filterFn i links allLinks s))
      (history (snd (loop depth filterFn i links allLinks s))).
Proof.
  intros Hexit Hfail Hstep i.
  remember (Z.to_nat (depth - i)) as n eqn:Hn. revert i Hn.
  induction n as [n IH] using lt_wf_ind.
  intros i Hn links allLinks s HI.
  rewrite loop_iteration. destruct (Z_lt_dec i depth) as [Hlt | Hge].
  - pose proof (issue_targets links (world s)) as Htargets.
    destruct (level_spec i links allLinks filterFn s) as [s' [_ Hcase]].
    unfold bind.
    destruct Hcase as [[url [e [Hl [Hin Hh]]]] | [Hok [Hl Hh]]]; rewrite Hl.
    + simpl. rewrite Hh. eapply Hfail; eauto.
    + cbv beta iota. cbn [fst snd].
      eapply (IH (Z.to_nat (depth - (reset_i depth i links + 1)))); [| reflexivity |].
      * subst n. unfold reset_i.
        destruct (Nat.eqb (JSSet.size links) 0); lia.
      * rewrite Hh.
        apply (Hstep i links allLinks (history s) (fst (issue links (world s))));
          assumption.
  - simpl. apply (Hexit i links); assumption.
Qed.

(** The ways a call of [crawl] goes until it enters the loop. *)
Lemma crawl_cases (domain : string) (depth : Z) (filterFn : string -> bool)
    (w : W) :
  let url := String.append "http://" domain in
  (isURL url = false
   /\ crawl domain depth filterFn (start w)
      = (inl (Throw (Error (String.append "Invalid url: " url))), start w))
  \/ (isURL url = true /\ depth = 0
      /\ crawl domain depth filterFn (start w) = (inr [url], start w))
  \/ (isURL url = true /\ depth <> 0
      /\ exists e w1,
           axios_get url w = (inl e, w1)
           /\ crawl domain depth filterFn (start w)
              = (inl (Reject e),
                 {| world := w1;
                    history := [Batch 0 JSSet.empty [(url, inl e)]];
                    console := [] |}))
  \/ (isURL url = true /\ depth <> 0
      /\ exists mainPage w1 s1,
           axios_get url w = (inr mainPage, w1)
           /\ world s1 = w1
           /\ history s1
              = [Batch 0 JSSet.empty [(url, inr mainPage)];
                 Frontier 0 (JSSet.of_list (links_on mainPage filterFn))]
           /\ crawl domain depth filterFn (start w)
              = loop depth filterFn 1
                     (JSSet.of_list (links_on mainPage filterFn))
                     (links_on mainPage filterFn) s1).
Proof.
  intros url. unfold crawl. fold url.
  destruct (isURL url) eqn:Hurl; cbn [negb].
  2:{ left. split; reflexivity. }
  right. destruct (Z.eqb_spec depth 0) as [H0 | H0].
  { left. repeat split; assumption. }
  right.
  match goal with
  | |- context [bind (get axios_get url) ?k0 _] => set (k := k0)
  end.
  unfold bind, get. cbn [world start history console app].
  destruct (axios_get url w) as [[e | mainPage] w1] eqn:Hget.
  - left. repeat split; try assumption. exists e, w1. split; reflexivity.
  - right. repeat split; try assumption.
    subst k. cbv beta.
    match goal with
    | |- context [bind (queueLinks mainPage filterFn) _ ?s0] =>
        destruct (queueLinks_spec mainPage filterFn s0) as [s1 [Hq [Hw Hh]]]
    end.
    cbn [world history] in Hw, Hh.
    eexists mainPage, w1, _. split; [reflexivity |].
    unfold bind at 1. rewrite Hq. unfold bind, note, JSSet.to_list.
    cbn [fst snd].
    split; [| split; [| reflexivity]]; cbn [world history].
    + exact Hw.
    + rewrite Hh. reflexivity.
Qed.

(** Invariants of a whole call, from the first statement of [crawl]. *)
Lemma crawl_rule (domain : string) (depth : Z) (filterFn : string -> bool)
    (I : Z -> JSSet.t -> JSSet.t -> list event -> Prop)
    (Q : thrown + JSSet.t -> list event -> Prop) :
  let url := String.append "http://" domain in
  (isURL url = false ->
   Q (inl (Throw (Error (String.append "Invalid url: " url)))) []) ->
  (depth = 0 -> Q (inr [url]) []) ->
  (forall e, depth <> 0 ->
             Q (inl (Reject e)) [Batch 0 JSSet.empty [(url, inl e)]]) ->
  (forall mainPage,
      depth <> 0 ->
      I 1 (JSSet.of_list (links_on mainPage filterFn))
        (links_on mainPage filterFn)
        [Batch 0 JSSet.empty [(url, inr mainPage)];
         Frontier 0 (JSSet.of_list (links_on mainPage filterFn))]) ->
  (forall i links allLinks h,
      I i links allLinks h -> ~ i < depth -> Q (inr allLinks) h) ->
  (forall i links allLinks h rs url' e,
      I i links allLinks h -> i < depth -> map fst rs = links ->
      In (url', inl e) rs ->
      Q (inl (Reject e)) (h ++ [Batch i allLinks rs])) ->
  (forall i links allLinks h rs,
      I i links allLinks h -> i < depth -> map fst rs = links ->
      (forall url' e, ~ In (url', inl e) rs) ->
      let N := newLinkSet (map (fun p => links_on p filterFn) (fulfilled rs)) in
      I (reset_i depth i links + 1)
        (JSSet.difference N allLinks) (JSSet.add_all N allLinks)
        (h ++ [Batch i allLinks rs; Frontier i (JSSet.difference N allLinks)])) ->
  forall w res s',
    crawl domain depth filterFn (start w) = (res, s') ->
    Q res (history s').
Proof.
  intros url Hinvalid Hzero Hseed Hinit Hexit Hfail Hstep w res s' Hrun.
  destruct (crawl_cases domain depth filterFn w)
    as [[Hurl Hc] | [[Hurl [H0 Hc]] | [[Hurl [H0 [e [w1 [_ Hc]]]]]
        | [Hurl [H0 [mainPage [w1 [s1 [_ [_ [Hh Hc]]]]]]]]]]];
    fold url in Hc; rewrite Hc in Hrun.
  - inversion Hrun; subst. now apply Hinvalid.
  - inversion Hrun; subst res s'. now apply Hzero.
  - inversion Hrun; subst. now apply Hseed.
  - pose proof (loop_rule depth filterFn I Q Hexit Hfail Hstep 1
                  (JSSet.of_list (links_on mainPage filterFn))
                  (links_on mainPage filterFn) s1) as Hloop.
    rewrite Hrun in Hloop. apply Hloop. rewrite Hh. now apply Hinit.
Qed.

(** The sets of a run hold every address once: the set [crawl] returns
    has no repetition. *)
Lemma links_on_NoDup (pageContent : AxiosResponse) (filterFn : string -> bool) :
  NoDup (links_on pageContent filterFn).
Proof.
  unfold links_on. destruct (status pageContent =? 200).
  - apply JSSetFacts.NoDup_of_list.
  - constructor.
Qed.

Lemma crawl_result_NoDup (domain : string) (depth : Z)
    (filterFn : string -> bool) (w : W) (result : JSSet.t) (s' : io) :
  crawl domain depth filterFn (start w) = (inr result, s') ->
  NoDup result.
Proof.
  intros Hrun.
  refine (crawl_rule domain depth filterFn
            (fun _ _ allLinks _ => NoDup allLinks)
            (fun res _ => forall r, res = inr r -> NoDup r)
            _ _ _ _ _ _ _ w (inr result) s' Hrun result eq_refl).
  - intros _ r Hr. discriminate.
  - intros _ r Hr. injection Hr as <-. repeat constructor. intros [].
  - intros e _ r Hr. discriminate.
  - intros mainPage _. apply links_on_NoDup.
  - intros i links allLinks h HI _ r Hr. injection Hr as <-. exact HI.
  - intros i links allLinks h rs url e _ _ _ _ r Hr. discriminate.
  - intros i links allLinks h rs HI _ _ _ N.
    apply JSSetFacts.NoDup_add_all, HI.
Qed.

(** C5. With depth 0 and a domain that makes a well-formed address,
    [crawl] returns exactly the set of the seed address, the domain after
    [http://], and leaves the world and the record of requests as they
    were: no page is fetched. *)
Theorem crawl_depth_zero (domain : string) (filterFn : string -> bool) (s : io) :
  isURL (String.append "http://" domain) = true ->
  crawl domain 0 filterFn s = (inr [String.append "http://" domain], s).
Proof.
  intros Hurl. unfold crawl. rewrite Hurl. reflexivity.
Qed.

(** C7. For a page whose status is not 200 [queueLinks] returns the empty
    set, whatever the filter; it throws nothing, and its only effect is
    the line on the console that reports the status. *)
Theorem queueLinks_bad_status (pageContent : AxiosResponse)
    (filterFn : string -> bool) (s : io) :
  status pageContent <> 200 ->
  queueLinks pageContent filterFn s
  = (inr JSSet.empty,
     {| world := world s;
        history := history s;
        console :=
          console s
          ++ [Error (String.append "Website returned an error: "
                                   (number_to_string (status pageContent)))] |}).
Proof.
  intros Hstatus. unfold queueLinks.
  destruct (Z.eqb_spec (status pageContent) 200) as [H200 | _];
    [contradiction | reflexivity].
Qed.

(** C8. When the domain after [http://] is not a well-formed address,
    [crawl] throws the error [Invalid url] at once, whatever the depth and
    the filter: the world and the record of requests are as they were (no
    request was made) and no set is returned. *)
Theorem crawl_invalid_url (domain : string) (depth : Z)
    (filterFn : string -> bool) (s : io) :
  isURL (String.append "http://" domain) = false ->
  crawl domain depth filterFn s
  = (inl (Throw (Error (String.append "Invalid url: "
                                      (String.append "http://" domain)))), s).
Proof.
  intros Hurl. unfold crawl. rewrite Hurl. reflexivity.
Qed.

Lemma reset_i_ge (depth i : Z) (links : JSSet.t) :
  i < depth -> i <= reset_i depth i links.
Proof.
  unfold reset_i. destruct (Nat.eqb (JSSet.size links) 0); lia.
Qed.

(** Membership in a history that grew by one or by two events. *)
Ltac same_event H :=
  first [ discriminate H | inversion H; subst ].

Ltac grown H :=
  apply in_app_or in H;
  first [ destruct H as [H | [H | []]]; [| same_event H]
        | destruct H as [H | [H | [H | []]]]; [| same_event H ..] ].

(** C2. In a run of [crawl], take the batch of requests of a level [i],
    issued when [allLinks] was [V], and the batch of a later level [j]:
    no member of [V] is the address of a request of level [j].  The reason
    is recorded with it: the frontier a level of the loop leaves is the
    merge of the sets of its pages minus [allLinks] as it was when the
    level began. *)
Theorem no_refetch (domain : string) (depth : Z) (filterFn : string -> bool)
    (w : W) (res : thrown + JSSet.t) (s' : io) :
  crawl domain depth filterFn (start w) = (res, s') ->
  (forall i j V V' rs rs' url,
      In (Batch i V rs) (history s') ->
      In (Batch j V' rs') (history s') ->
      i < j ->
      In url V -> ~ In url (map fst rs'))
  /\ (forall i links,
         In (Frontier i links) (history s') -> i <> 0 ->
         exists V rs,
           In (Batch i V rs) (history s')
           /\ links
              = JSSet.difference
                  (newLinkSet (map (fun p => links_on p filterFn) (fulfilled rs)))
                  V).
Proof.
  pose (P := fun h : list event =>
    (forall i j V V' rs rs' url,
        In (Batch i V rs) h -> In (Batch j V' rs') h -> i < j ->
        In url V -> ~ In url (map fst rs'))
    /\ (forall i links,
           In (Frontier i links) h -> i <> 0 ->
           exists V rs,
             In (Batch i V rs) h
             /\ links
                = JSSet.difference
                    (newLinkSet (map (fun p => links_on p filterFn) (fulfilled rs)))
                    V)).
  pose (I := fun (i : Z) (links allLinks : JSSet.t) (h : list event) =>
    (forall ev, In ev h -> level_of ev < i)
    /\ (forall j Vj rsj url,
           In (Batch j Vj rsj) h -> In url Vj ->
           In url allLinks /\ ~ In url links)
    /\ P h).
  intros Hrun.
  refine (crawl_rule domain depth filterFn I (fun _ h => P h)
            _ _ _ _ _ _ _ w res s' Hrun).
  - intros _. split; intros; contradiction.
  - intros _. split; intros; contradiction.
  - intros e _. split.
    + intros i j V V' rs rs' url Hi Hj Hlt.
      destruct Hi as [Hi | []]. destruct Hj as [Hj | []].
      inversion Hi; inversion Hj; lia.
    + intros i links [Hf | []]. discriminate.
  - intros mainPage _. split; [| split; [| split]].
    + intros ev [<- | [<- | []]]; simpl; lia.
    + intros j Vj rsj url [Hb | [Hb | []]] Hin; inversion Hb; subst.
      destruct Hin.
    + intros i j V V' rs rs' url Hi Hj Hlt.
      destruct Hi as [Hi | [Hi | []]]; destruct Hj as [Hj | [Hj | []]];
        inversion Hi; inversion Hj; lia.
    + intros i links [Hf | [Hf | []]] Hi; inversion Hf; subst. contradiction.
  - intros i links allLinks h [_ [_ HP]] _. exact HP.
  - intros i links allLinks h rs url e [Hlevel [Hvis [HP1 HP2]]] Hlt <- _.
    split.
    + intros i1 j V V' rs1 rs2 u Hi Hj Hij Hu. grown Hi; grown Hj.
      * exact (HP1 _ _ _ _ _ _ _ Hi Hj Hij Hu).
      * destruct (Hvis _ _ _ _ Hi Hu) as [_ Hnot]. exact Hnot.
      * apply Hlevel in Hj. simpl in Hj. lia.
      * lia.
    + intros i1 links1 Hf Hi1. grown Hf.
      destruct (HP2 _ _ Hf Hi1) as [V [rs1 [Hb Heq]]].
      exists V, rs1. split; [apply in_or_app; now left | exact Heq].
  - intros i links allLinks h rs Hinv Hlt <- _ N.
    destruct Hinv as [Hlevel [Hvis [HP1 HP2]]].
    pose proof (reset_i_ge depth i (map fst rs) Hlt) as Hreset.
    split; [| split; [| split]].
    + intros ev Hev. grown Hev; simpl; [apply Hlevel in Hev |..]; lia.
    + intros j Vj rsj u Hb Hu. rewrite JSSetFacts.In_add_all, JSSetFacts.In_difference.
      grown Hb.
      * destruct (Hvis _ _ _ _ Hb Hu) as [Hin _]. tauto.
      * tauto.
    + intros i1 j V V' rs1 rs2 u Hi Hj Hij Hu. grown Hi; grown Hj.
      * exact (HP1 _ _ _ _ _ _ _ Hi Hj Hij Hu).
      * destruct (Hvis _ _ _ _ Hi Hu) as [_ Hnot]. exact Hnot.
      * apply Hlevel in Hj. simpl in Hj. lia.
      * lia.
    + intros i1 links1 Hf Hi1. grown Hf.
      * destruct (HP2 _ _ Hf Hi1) as [V [rs1 [Hb Heq]]].
        exists V, rs1. split; [apply in_or_app; now left | exact Heq].
      * exists allLinks, rs. split; [| reflexivity].
        apply in_or_app. right. now left.
Qed.

(** C3. In a run of [crawl], once a level [k] leaves an empty frontier,
    the only batch that can follow is the one of level [k + 1], and it has
    no request: the levels after it are skipped and no page is fetched
    after level [k].  This holds for every [k], in particular for
    [k < depth - 1]. *)
Theorem early_termination (domain : string) (depth : Z)
    (filterFn : string -> bool) (w : W) (res : thrown + JSSet.t) (s' : io) :
  crawl domain depth filterFn (start w) = (res, s') ->
  forall k j V rs,
    In (Frontier k []) (history s') ->
    In (Batch j V rs) (history s') ->
    k < j ->
    rs = [] /\ j = k + 1.
Proof.
  pose (P := fun h : list event =>
    forall k j V (rs : list (string * (E + AxiosResponse))),
      In (Frontier k []) h -> In (Batch j V rs) h -> k < j ->
      rs = [] /\ j = k + 1).
  pose (I := fun (i : Z) (links allLinks : JSSet.t) (h : list event) =>
    (forall ev, In ev h -> level_of ev < i)
    /\ (forall k, In (Frontier k []) h ->
                  links = [] /\ (i = k + 1 \/ depth < i))
    /\ P h).
  intros Hrun.
  refine (crawl_rule domain depth filterFn I (fun _ h => P h)
            _ _ _ _ _ _ _ w res s' Hrun).
  - intros _ k j V rs [].
  - intros _ k j V rs [].
  - intros e _ k j V rs [Hf | []]. discriminate.
  - intros mainPage _. split; [| split].
    + intros ev [<- | [<- | []]]; simpl; lia.
    + intros k [Hf | [Hf | []]]; [discriminate |].
      injection Hf as <- ->. split; [reflexivity | now left].
    + intros k j V rs [Hf | [Hf | []]] [Hb | [Hb | []]] Hkj;
        try discriminate.
      injection Hf as <- _. injection Hb as <- _ _. lia.
  - intros i links allLinks h [_ [_ HP]] _. exact HP.
  - intros i links allLinks h rs url e [Hlevel [Hempty HP]] Hlt <- _.
    intros k j V rs1 Hf Hb Hkj. grown Hf. grown Hb.
    + exact (HP _ _ _ _ Hf Hb Hkj).
    + destruct (Hempty _ Hf) as [Hnil Hi].
      apply map_eq_nil in Hnil. split; [assumption | lia].
  - intros i links allLinks h rs [Hlevel [Hempty HP]] Hlt <- _ N.
    pose proof (reset_i_ge depth i (map fst rs) Hlt) as Hreset.
    assert (Hold : forall k, In (Frontier k []) h -> rs = [] /\ i = k + 1).
    { intros k Hf. destruct (Hempty _ Hf) as [Hnil Hi].
      apply map_eq_nil in Hnil. split; [assumption | lia]. }
    split; [| split].
    + intros ev Hev. grown Hev; simpl; [apply Hlevel in Hev |..]; lia.
    + intros k Hf. apply in_app_or in Hf.
      destruct Hf as [Hf | [Hf | [Hf | []]]]; [| discriminate |].
      * destruct (Hold _ Hf) as [-> ->]. split; [reflexivity |].
        right. unfold reset_i. simpl. lia.
      * injection Hf as <- HN. split; [exact HN |].
        unfold reset_i. destruct (Nat.eqb (JSSet.size (map fst rs)) 0); lia.
    + intros k j V rs1 Hf Hb Hkj. apply in_app_or in Hf.
      destruct Hf as [Hf | [Hf | [Hf | []]]]; [| discriminate |]; grown Hb.
      * exact (HP _ _ _ _ Hf Hb Hkj).
      * destruct (Hold _ Hf) as [Hnil Hi]. split; [assumption | lia].
      * injection Hf as <- _. apply Hlevel in Hb. simpl in Hb. lia.
      * injection Hf as <- _. lia.
Qed.

(** C6. In a run of [crawl], when a request of any batch, the one for
    the seed page or one of a level, is rejected, the call ends with the
    rejection of a request of the run: what the caller receives is that
    failure and not a set. *)
Theorem fetch_failure_aborts (domain : string) (depth : Z)
    (filterFn : string -> bool) (w : W) (res : thrown + JSSet.t) (s' : io) :
  crawl domain depth filterFn (start w) = (res, s') ->
  forall i V rs url e,
    In (Batch i V rs) (history s') ->
    In (url, inl e) rs ->
    exists i' V' rs' url' e',
      In (Batch i' V' rs') (history s')
      /\ In (url', inl e') rs'
      /\ res = inl (Reject e').
Proof.
  pose (Q := fun (res : thrown + JSSet.t) (h : list event) =>
    forall i V rs url (e : E),
      In (Batch i V rs) h -> In (url, inl e) rs ->
      exists i' V' rs' url' e',
        In (Batch i' V' rs') h /\ In (url', inl e') rs'
        /\ res = inl (Reject e')).
  pose (I := fun (i : Z) (links allLinks : JSSet.t) (h : list event) =>
    forall j Vj rsj url (e : E),
      In (Batch j Vj rsj) h -> ~ In (url, inl e) rsj).
  intros Hrun.
  refine (crawl_rule domain depth filterFn I Q _ _ _ _ _ _ _ w res s' Hrun).
  - intros _ i V rs url e [].
  - intros _ i V rs url e [].
  - intros e _ i V rs url e0 _ _.
    eexists 0, _, _, _, e. split; [now left | split; [now left | reflexivity]].
  - intros mainPage _ j Vj rsj url e [Hb | [Hb | []]]; [| discriminate].
    injection Hb as <- <- <-. intros [Hin | []]. discriminate.
  - intros i links allLinks h HI _ j V rs url e Hb Hin.
    destruct (HI _ _ _ _ _ Hb Hin).
  - intros i links allLinks h rs url e HI Hlt _ Hin j V rs1 url1 e1 _ _.
    exists i, allLinks, rs, url, e.
    split; [apply in_or_app; right; now left | split; [assumption | reflexivity]].
  - intros i links allLinks h rs HI Hlt _ Hok N j Vj rsj url e Hb.
    grown Hb; [exact (HI _ _ _ _ _ Hb) | apply Hok].
Qed.

(** The members of the set of a page: the [href]s of its anchors that
    the filter accepts, after the rewriting of the scheme. *)
Lemma In_links_on (pageContent : AxiosResponse) (filterFn : string -> bool)
    (url : string) :
  In url (links_on pageContent filterFn)
  <-> status pageContent = 200
      /\ exists href,
           In (Some href) (hrefs (cheerio_a (data pageContent)))
           /\ filterFn href = true
           /\ replace_prefix "https" "http" href = url.
Proof.
  unfold links_on. destruct (Z.eqb_spec (status pageContent) 200) as [H200 | H200].
  - rewrite JSSetFacts.In_of_list, in_map_iff. split.
    + intros [href [Heq Hin]]. apply filter_In in Hin. destruct Hin as [Hin Hf].
      apply In_strings in Hin. eauto.
    + intros [_ [href [Hin [Hf Heq]]]]. exists href. split; [assumption |].
      apply filter_In. split; [now apply In_strings | assumption].
  - split; [intros [] | intros [H _]; contradiction].
Qed.

Lemma fulfilled_In (rs : list (string * (E + AxiosResponse)))
    (page : AxiosResponse) :
  In page (fulfilled rs) <-> exists url, In (url, inr page) rs.
Proof.
  induction rs as [| [u [e | p]] rs IH]; simpl.
  - split; [intros [] | intros [_ []]].
  - rewrite IH. split.
    + intros [url H]. eauto.
    + intros [url [H | H]]; [discriminate | eauto].
  - rewrite IH. split.
    + intros [<- | [url H]]; eauto.
    + intros [url [H | H]]; [left; congruence | eauto].
Qed.

(** Every member of the set [crawl] returns after fetching the seed page
    is a member of the set of a page some request of the run resolved
    with. *)
Lemma crawl_members (domain : string) (depth : Z) (filterFn : string -> bool)
    (w : W) (result : JSSet.t) (s' : io) :
  depth <> 0 ->
  crawl domain depth filterFn (start w) = (inr result, s') ->
  forall url,
    In url result ->
    exists i V rs url' page,
      In (Batch i V rs) (history s')
      /\ In (url', inr page) rs
      /\ In url (links_on page filterFn).
Proof.
  pose (found := fun (h : list event) (url : string) =>
    exists i V rs url' page,
      In (Batch i V rs) h /\ In (url', inr page) rs
      /\ In url (links_on page filterFn)).
  pose (Q := fun (res : thrown + JSSet.t) (h : list event) =>
    depth <> 0 ->
    forall result, res = inr result ->
                   forall url, In url result -> found h url).
  pose (I := fun (i : Z) (links allLinks : JSSet.t) (h : list event) =>
    forall url, In url allLinks -> found h url).
  assert (Hgrow : forall h h' url, found h url -> found (h ++ h') url).
  { intros h h' url [i [V [rs [url' [page [Hb H]]]]]].
    exists i, V, rs, url', page. split; [apply in_or_app; now left | exact H]. }
  intros Hdepth Hrun.
  refine (crawl_rule domain depth filterFn I Q _ _ _ _ _ _ _ w (inr result) s'
            Hrun Hdepth result eq_refl).
  - intros _ _ r Hr. discriminate.
  - intros H0 Hd. contradiction.
  - intros e _ _ r Hr. discriminate.
  - intros mainPage _ url Hin.
    eexists 0, _, _, _, mainPage. split; [now left | split; [now left | exact Hin]].
  - intros i links allLinks h HI _ _ r Hr. injection Hr as <-. exact HI.
  - intros i links allLinks h rs url e _ _ _ _ _ r Hr. discriminate.
  - intros i links allLinks h rs HI Hlt _ Hok N url Hin.
    apply JSSetFacts.In_add_all in Hin. destruct Hin as [Hin | Hin].
    + apply In_newLinkSet in Hin. destruct Hin as [urlSet [Hset Hin]].
      apply in_map_iff in Hset. destruct Hset as [page [<- Hpage]].
      apply fulfilled_In in Hpage. destruct Hpage as [url' Hpage].
      exists i, allLinks, rs, url', page.
      split; [apply in_or_app; right; now left | split; assumption].
    + apply Hgrow, HI, Hin.
Qed.

(** C10. With a depth of 1 or more, when the seed address is a member of
    the set [crawl] returns, a request of the run resolved with a page of
    status 200 that has an anchor whose [href] the filter accepts and
    that reads as the seed address once its scheme is rewritten: [crawl]
    puts no address in [allLinks] but the links of fetched pages, the
    seed address no more than another. *)
Theorem seed_only_if_linked (domain : string) (depth : Z)
    (filterFn : string -> bool) (w : W) (result : JSSet.t) (s' : io) :
  1 <= depth ->
  crawl domain depth filterFn (start w) = (inr result, s') ->
  In (String.append "http://" domain) result ->
  exists i V rs url page href,
    In (Batch i V rs) (history s')
    /\ In (url, inr page) rs
    /\ status page = 200
    /\ In (Some href) (hrefs (cheerio_a (data page)))
    /\ filterFn href = true
    /\ replace_prefix "https" "http" href = String.append "http://" domain.
Proof.
  intros Hdepth Hrun Hseed.
  assert (H0 : depth <> 0) by lia.
  destruct (crawl_members domain depth filterFn w result s' H0 Hrun _ Hseed)
    as [i [V [rs [url [page [Hb [Hin Hlinks]]]]]]].
  apply In_links_on in Hlinks. destruct Hlinks as [H200 [href [Hh [Hf Heq]]]].
  exists i, V, rs, url, page, href. auto 6.
Qed.

(** C1, as the code has it.  Take a seed page whose only link is the
    address [B] and a page at [B] whose only link is the seed address.
    With depth 2 the frontier the level that fetches [B] leaves is exactly
    the seed address: [allLinks] holds only [B] at that point, so the
    difference does not remove the seed address.  The loop ends there:
    the requests of the run are the seed page and [B], once each, and the
    set returned is [B] and the seed address. *)
Theorem seed_backlink (domain : string) (filterFn : string -> bool) (w w1 w2 : W)
    (B : string) (pageA pageB : AxiosResponse) :
  let seed := String.append "http://" domain in
  isURL seed = true ->
  axios_get seed w = (inr pageA, w1) ->
  links_on pageA filterFn = [B] ->
  axios_get B w1 = (inr pageB, w2) ->
  links_on pageB filterFn = [seed] ->
  B <> seed ->
  exists s',
    crawl domain 2 filterFn (start w) = (inr [B; seed], s')
    /\ world s' = w2
    /\ history s'
       = [Batch 0 JSSet.empty [(seed, inr pageA)];
          Frontier 0 [B];
          Batch 1 [B] [(B, inr pageB)];
          Frontier 1 [seed]].
Proof.
  intros seed Hurl HgetA HlinksA HgetB HlinksB Hneq.
  pose proof (crawl_cases domain 2 filterFn w) as Hcases.
  cbv zeta in Hcases. fold seed in Hcases.
  destruct Hcases
    as [[Hno _] | [[_ [H0 _]] | [[_ [_ [e [w' [Hget _]]]]]
        | [_ [_ [mainPage [w' [s1 [Hget [Hw [Hh Hc]]]]]]]]]]];
    try congruence; try discriminate.
  rewrite HgetA in Hget. injection Hget as <- <-.
  rewrite HlinksA in Hc, Hh. change (JSSet.of_list [B]) with [B] in Hc, Hh.
  rewrite Hc, loop_iteration.
  destruct (Z_lt_dec 1 2) as [_ | Hge]; [| lia].
  unfold bind.
  pose proof (level_spec 1 [B] [B] filterFn s1) as Hlevel.
  rewrite Hw in Hlevel. simpl issue in Hlevel. rewrite HgetB in Hlevel.
  cbn [fst snd fulfilled map] in Hlevel. rewrite HlinksB in Hlevel.
  clearbody seed.
  assert (Heqb : String.eqb seed B = false).
  { apply String.eqb_neq. congruence. }
  match type of Hlevel with
  | context [JSSet.difference ?N ?V] =>
      assert (Hd : JSSet.difference N V = [seed]);
      [| assert (Ha : JSSet.add_all N V = [B; seed])]
  end.
  { unfold newLinkSet, JSSet.difference, JSSet.has. simpl.
    rewrite Heqb. reflexivity. }
  { unfold newLinkSet, JSSet.add_all, JSSet.add, JSSet.has. simpl.
    rewrite Heqb. reflexivity. }
  rewrite Hd, Ha, Hh in Hlevel.
  destruct Hlevel as [s2 [Hw2 [[url [e [_ [[Hin | []] _]]]] | [_ [Hl Hh2]]]]];
    [discriminate |].
  rewrite Hl. cbn [fst snd]. rewrite loop_iteration.
  destruct (Z_lt_dec (reset_i 2 1 [B] + 1) 2) as [Hlt | _];
    [unfold reset_i in Hlt; simpl in Hlt; lia |].
  exists s2. split; [reflexivity | split; assumption].
Qed.

End CrawlerFacts.

(** ** The rewriting of the scheme *)

Lemma strip_prefix_app (p s rest : string) :
  strip_prefix p s = Some rest <-> s = String.append p rest.
Proof.
  revert s. induction p as [| a p IH]; intros s; simpl.
  - split; congruence.
  - destruct s as [| b s]; [split; discriminate |].
    destruct (Ascii.eqb_spec a b) as [<- | Hab].
    + rewrite IH. split; congruence.
    + split; [discriminate | congruence].
Qed.

Lemma prefix_app (p s : string) :
  String.prefix p s = true <-> exists rest, s = String.append p rest.
Proof.
  revert s. induction p as [| a p IH]; intros s; simpl.
  - split; [intros _; exists s; reflexivity | intros _; now destruct s].
  - destruct s as [| b s]; simpl.
    + split; [discriminate | intros [rest H]; discriminate].
    + destruct (ascii_dec a b) as [Hab | Hab].
      * subst b. rewrite IH. split; intros [rest H]; exists rest; congruence.
      * split; [discriminate | intros [rest H]; congruence].
Qed.

(** The rewriting yields an address with the secure scheme only from a
    link that starts with [httpss]. *)
Lemma replace_https_secure (href : string) :
  secure_scheme (replace_prefix "https" "http" href) = true ->
  String.prefix "httpss" href = true.
Proof.
  unfold secure_scheme, replace_prefix.
  destruct (strip_prefix "https" href) as [rest |] eqn:Hstrip.
  - apply strip_prefix_app in Hstrip. subst href.
    rewrite !prefix_app. intros [rest' H]. simpl in H.
    injection H as ->. exists rest'. reflexivity.
  - intros H. apply prefix_app in H. destruct H as [rest H].
    apply strip_prefix_app in H. congruence.
Qed.

(** A member of the set [crawl] returns has the secure scheme only when
    it comes from a link that starts with [httpss]. *)
Lemma secure_member_from_httpss {W E : Type}
    (axios_get : string -> W -> (E + AxiosResponse) * W)
    (isURL : string -> bool) (cheerio_a : string -> list entry)
    (domain : string) (depth : Z) (filterFn : string -> bool)
    (w : W) (result : JSSet.t) (s' : io) :
  crawl axios_get isURL cheerio_a domain depth filterFn (start w)
  = (inr result, s') ->
  forall url,
    In url result -> secure_scheme url = true ->
    exists href,
      filterFn href = true
      /\ String.prefix "httpss" href = true
      /\ replace_prefix "https" "http" href = url.
Proof.
  intros Hrun url Hin Hsecure.
  destruct (Z.eq_dec depth 0) as [-> | Hdepth].
  - destruct (crawl_cases axios_get isURL cheerio_a domain 0 filterFn w)
      as [[_ Hc] | [[_ [_ Hc]] | [[_ [H0 _]] | [_ [H0 _]]]]];
      try contradiction; rewrite Hc in Hrun; [discriminate |].
    injection Hrun as <- _. destruct Hin as [<- | []]. discriminate.
  - destruct (crawl_members axios_get isURL cheerio_a domain depth filterFn
                w result s' Hdepth Hrun url Hin)
      as [i [V [rs [url' [page [_ [_ Hlinks]]]]]]].
    apply In_links_on in Hlinks. destruct Hlinks as [_ [href [_ [Hf Heq]]]].
    exists href. split; [assumption | split; [| assumption]].
    apply replace_https_secure. now rewrite Heq.
Qed.

(** ** The crawler on the example sites *)

(** C4, at the input that breaks it.  The seed page of the site
    [misspelt] has one link, [httpss://example.com/login]; the call with
    depth 1 and a filter that accepts every link returns the set of
    [https://example.com/login], an address with the secure scheme: the
    rewriting removes one [s] and leaves the other. *)
Theorem httpss_link_stays_secure :
  Example.isURL "http://example.com" = true
  /\ hrefs (Example.cheerio_a (data Example.to_login))
     = [Some "httpss://example.com/login"; None; None; None; None]
  /\ fst (Example.run Example.misspelt 1) = inr ["https://example.com/login"]
  /\ secure_scheme "https://example.com/login" = true.
Proof.
  repeat split; vm_compute; reflexivity.
Qed.

(** C1, refuted as stated.  On the site [backlink] the seed page links
    to [b] only and the page at [b] links back to the seed address only;
    with depth 2 the frontier the level that fetches [b] leaves contains
    the seed address. *)
Lemma seed_backlink_counterexample :
  links_on Example.cheerio_a Example.to_b Example.accept_all = [Example.b]
  /\ links_on Example.cheerio_a Example.to_home Example.accept_all
     = [Example.home]
  /\ ~ (forall links,
           In (Frontier 1 links) (history (snd (Example.run Example.backlink 2))) ->
           ~ In Example.home links).
Proof.
  split; [vm_compute; reflexivity | split; [vm_compute; reflexivity |]].
  intros Hclaim. apply (Hclaim [Example.home]).
  - vm_compute. right. right. right. left. reflexivity.
  - left. reflexivity.
Qed.

(** The site [backlink] is such a scenario. *)
Lemma seed_backlink_witness :
  Example.isURL Example.home = true
  /\ Example.b <> Example.home
  /\ exists s',
       Example.run Example.backlink 2 = (inr [Example.b; Example.home], s')
       /\ world s' = Example.backlink
       /\ history s'
          = [Batch 0 JSSet.empty [(Example.home, inr Example.to_b)];
             Frontier 0 [Example.b];
             Batch 1 [Example.b] [(Example.b, inr Example.to_home)];
             Frontier 1 [Example.home]].
Proof.
  assert (Hurl : Example.isURL Example.home = true) by reflexivity.
  assert (Hneq : Example.b <> Example.home) by discriminate.
  split; [exact Hurl | split; [exact Hneq |]].
  exact (seed_backlink Example.axios_get Example.isURL Example.cheerio_a
           "example.com" Example.accept_all
           Example.backlink Example.backlink Example.backlink
           Example.b Example.to_b Example.to_home
           Hurl eq_refl eq_refl eq_refl eq_refl Hneq).
Defined.

(** On the site [shop], [b] is in [allLinks] when level 1 starts and is
    not requested at level 2. *)
Lemma no_refetch_witness :
  let h := history (snd (Example.run Example.shop 5)) in
  let level_1 := [(Example.b, inr Example.to_a_c)] in
  let level_2 := [(Example.a, inr Example.to_b);
                  (Example.c, inr Example.no_content)] in
  In (Batch 1 [Example.b] level_1) h
  /\ In (Batch 2 [Example.b; Example.a; Example.c] level_2) h
  /\ 1 < 2
  /\ In Example.b [Example.b]
  /\ ~ In Example.b (map fst level_2).
Proof.
  intros h level_1 level_2.
  assert (H1 : In (Batch 1 [Example.b] level_1) h).
  { vm_compute. right. right. left. reflexivity. }
  assert (H2 : In (Batch 2 [Example.b; Example.a; Example.c] level_2) h).
  { vm_compute. do 4 right. left. reflexivity. }
  assert (Hlt : 1 < 2) by reflexivity.
  assert (Hin : In Example.b [Example.b]) by (left; reflexivity).
  repeat (split; [assumption |]).
  exact (proj1 (no_refetch Example.axios_get Example.isURL Example.cheerio_a
                  "example.com" 5 Example.accept_all Example.shop _ _
                  (surjective_pairing _))
           1 2 _ _ _ _ Example.b H1 H2 Hlt Hin).
Defined.

(** On the site [shop], level 2 leaves an empty frontier and level 3 issues
    no request. *)
Lemma early_termination_witness :
  let h := history (snd (Example.run Example.shop 5)) in
  In (Frontier 2 []) h
  /\ In (Batch 3 [Example.b; Example.a; Example.c] []) h
  /\ 2 < 3
  /\ (@nil (string * (string + AxiosResponse)) = [] /\ 3 = 2 + 1).
Proof.
  intros h.
  assert (H1 : In (Frontier 2 []) h).
  { vm_compute. do 5 right. left. reflexivity. }
  assert (H2 : In (Batch 3 [Example.b; Example.a; Example.c] []) h).
  { vm_compute. do 6 right. left. reflexivity. }
  assert (Hlt : 2 < 3) by reflexivity.
  repeat (split; [assumption |]).
  exact (early_termination Example.axios_get Example.isURL Example.cheerio_a
           "example.com" 5 Example.accept_all Example.shop _ _
           (surjective_pairing _) 2 3 _ _ H1 H2 Hlt).
Defined.

(** Depth 0 on the site [shop]. *)
Lemma crawl_depth_zero_witness :
  Example.isURL "http://example.com" = true
  /\ Example.run Example.shop 0
     = (inr ["http://example.com"], Example.fresh Example.shop).
Proof.
  assert (Hurl : Example.isURL (String.append "http://" "example.com") = true)
    by reflexivity.
  split; [exact Hurl |].
  exact (crawl_depth_zero Example.axios_get Example.isURL Example.cheerio_a
           "example.com" Example.accept_all (Example.fresh Example.shop) Hurl).
Defined.

(** On the site [broken], the request for [gone] at level 2 is rejected and
    so is the call. *)
Lemma fetch_failure_aborts_witness :
  let run := Example.run Example.broken 5 in
  let level_2 := [(Example.a, inr Example.no_link);
                  (Example.gone, inl "ECONNRESET")] in
  In (Batch 2 [Example.b; Example.a; Example.gone] level_2) (history (snd run))
  /\ In (Example.gone, inl "ECONNRESET") level_2
  /\ exists i' V' rs' url' e',
       In (Batch i' V' rs') (history (snd run))
       /\ In (url', inl e') rs'
       /\ fst run = inl (Reject e').
Proof.
  intros run level_2.
  assert (H1 : In (Batch 2 [Example.b; Example.a; Example.gone] level_2)
                  (history (snd run))).
  { vm_compute. do 4 right. left. reflexivity. }
  assert (H2 : In (Example.gone, @inl string AxiosResponse "ECONNRESET") level_2).
  { right. left. reflexivity. }
  split; [exact H1 | split; [exact H2 |]].
  exact (fetch_failure_aborts Example.axios_get Example.isURL Example.cheerio_a
           "example.com" 5 Example.accept_all Example.broken _ _
           (surjective_pairing _) 2 _ _ _ _ H1 H2).
Defined.

(** A page of status 204. *)
Lemma queueLinks_bad_status_witness :
  status Example.no_content <> 200
  /\ queueLinks Example.cheerio_a Example.no_content Example.accept_all
       (Example.fresh Example.shop)
     = (inr [],
        {| world := Example.shop;
           history := [];
           console := [Error "Website returned an error: 204"] |}).
Proof.
  assert (Hstatus : status Example.no_content <> 200) by discriminate.
  split; [exact Hstatus |].
  exact (queueLinks_bad_status Example.cheerio_a Example.no_content
           Example.accept_all (Example.fresh Example.shop) Hstatus).
Defined.

(** The empty domain. *)
Lemma crawl_invalid_url_witness :
  Example.isURL "http://" = false
  /\ crawl Example.axios_get Example.isURL Example.cheerio_a "" 3
       Example.accept_all (Example.fresh Example.shop)
     = (inl (Throw (Error "Invalid url: http://")), Example.fresh Example.shop).
Proof.
  assert (Hurl : Example.isURL (String.append "http://" "") = false)
    by reflexivity.
  split; [exact Hurl |].
  exact (crawl_invalid_url Example.axios_get Example.isURL Example.cheerio_a
           "" 3 Example.accept_all (Example.fresh Example.shop) Hurl).
Defined.

(** On the site [backlink], the seed address is returned because the page
    at [b] links to it. *)
Lemma seed_only_if_linked_witness :
  let run := Example.run Example.backlink 2 in
  1 <= 2
  /\ run = (inr [Example.b; Example.home], snd run)
  /\ In "http://example.com" [Example.b; Example.home]
  /\ exists i V rs url page href,
       In (Batch i V rs) (history (snd run))
       /\ In (url, inr page) rs
       /\ status page = 200
       /\ In (Some href) (hrefs (Example.cheerio_a (data page)))
       /\ Example.accept_all href = true
       /\ replace_prefix "https" "http" href = "http://example.com".
Proof.
  intros run.
  assert (Hdepth : 1 <= 2) by discriminate.
  assert (Hrun : run = (inr [Example.b; Example.home], snd run)).
  { vm_compute. reflexivity. }
  assert (Hseed : In (String.append "http://" "example.com")
                     [Example.b; Example.home]).
  { right. left. reflexivity. }
  split; [exact Hdepth | split; [exact Hrun | split; [exact Hseed |]]].
  exact (seed_only_if_linked Example.axios_get Example.isURL Example.cheerio_a
           "example.com" 2 Example.accept_all Example.backlink _ _
           Hdepth Hrun Hseed).
Defined.

(** * Further properties of the runs *)

Section CrawlerRuns.

Context {W E : Type}.
Variable axios_get : string -> W -> (E + AxiosResponse) * W.
Variable isURL : string -> bool.
Variable cheerio_a : string -> list entry.

Local Abbreviation links_on := (links_on cheerio_a).
Local Abbreviation issue := (issue axios_get).
Local Abbreviation level := (level axios_get cheerio_a).
Local Abbreviation loop := (loop axios_get cheerio_a).
Local Abbreviation crawl := (crawl axios_get isURL cheerio_a).
Local Abbreviation crawl_rule := (crawl_rule axios_get isURL cheerio_a).
Local Abbreviation io := (@io W E).
Local Abbreviation event := (@event E).
Local Abbreviation thrown := (@thrown E).

(** Membership in a history with one or two more events. *)
Ltac added H :=
  apply in_app_or in H;
  first [ destruct H as [H | [H | []]];
          [| first [discriminate H | inversion H; subst]]
        | destruct H as [H | [H | [H | []]]];
          [| first [discriminate H | inversion H; subst] ..] ].

Lemma incl_add_all (src : list string) (dst : JSSet.t) :
  incl dst (JSSet.add_all src dst).
Proof.
  intros url Hin. apply JSSetFacts.In_add_all. now right.
Qed.

(** The merge of the sets of the pages of a batch holds every address
    once. *)
Lemma NoDup_newLinkSet_pages (filterFn : string -> bool)
    (pages : list AxiosResponse) :
  NoDup (newLinkSet (map (fun p => links_on p filterFn) pages)).
Proof.
  apply NoDup_merge; [constructor |].
  apply Forall_forall. intros urlSet Hin.
  apply in_map_iff in Hin. destruct Hin as [p [<- _]].
  apply links_on_NoDup.
Qed.

(** [allLinks] only grows: the set of an earlier level is included in
    the set of a later level, and every one of them in the set the call
    returns. *)
Theorem visited_grows (domain : string) (depth : Z) (filterFn : string -> bool)
    (w : W) (res : thrown + JSSet.t) (s' : io) :
  crawl domain depth filterFn (start w) = (res, s') ->
  (forall i j V V' rs rs',
      In (Batch i V rs) (history s') ->
      In (Batch j V' rs') (history s') ->
      i < j -> incl V V')
  /\ (forall result i V rs,
         res = inr result ->
         In (Batch i V rs) (history s') -> incl V result).
Proof.
  pose (P := fun h : list event =>
    forall i j V V' (rs rs' : list (string * (E + AxiosResponse))),
      In (Batch i V rs) h -> In (Batch j V' rs') h -> i < j -> incl V V').
  pose (I := fun (i : Z) (links allLinks : JSSet.t) (h : list event) =>
    (forall ev, In ev h -> level_of ev < i)
    /\ (forall j Vj rsj, In (Batch j Vj rsj) h -> incl Vj allLinks)
    /\ P h).
  pose (Q := fun (res : thrown + JSSet.t) (h : list event) =>
    P h
    /\ forall result i V (rs : list (string * (E + AxiosResponse))),
         res = inr result -> In (Batch i V rs) h -> incl V result).
  intros Hrun.
  refine (crawl_rule domain depth filterFn I Q _ _ _ _ _ _ _ w res s' Hrun).
  - intros _. split; [intros i j V V' rs rs' [] | intros r i V rs _ []].
  - intros _. split; [intros i j V V' rs rs' [] | intros r i V rs _ []].
  - intros e _. split; [| intros r i V rs Hr; discriminate].
    intros i j V V' rs rs' [Hi | []] [Hj | []] Hlt.
    inversion Hi; inversion Hj; lia.
  - intros mainPage _. split; [| split].
    + intros ev [<- | [<- | []]]; simpl; lia.
    + intros j Vj rsj [Hb | [Hb | []]]; inversion Hb. intros url [].
    + intros i j V V' rs rs' [Hi | [Hi | []]] [Hj | [Hj | []]] Hlt;
        inversion Hi; inversion Hj; lia.
  - intros i links allLinks h [_ [Hvis HP]] _. split; [exact HP |].
    intros r j V rs Hr Hb. injection Hr as <-. exact (Hvis _ _ _ Hb).
  - intros i links allLinks h rs url e [Hlevel [Hvis HP]] Hlt _ _.
    split; [| intros r j V rs1 Hr; discriminate].
    intros i1 j V V' rs1 rs2 Hi Hj Hij. added Hi; added Hj.
    + exact (HP _ _ _ _ _ _ Hi Hj Hij).
    + exact (Hvis _ _ _ Hi).
    + apply Hlevel in Hj. simpl in Hj. lia.
    + lia.
  - intros i links allLinks h rs [Hlevel [Hvis HP]] Hlt _ _ N.
    pose proof (reset_i_ge depth i links Hlt) as Hreset.
    split; [| split].
    + intros ev Hev. added Hev; simpl; [apply Hlevel in Hev |..]; lia.
    + intros j Vj rsj Hb. added Hb.
      * eapply incl_tran; [exact (Hvis _ _ _ Hb) | apply incl_add_all].
      * apply incl_add_all.
    + intros i1 j V V' rs1 rs2 Hi Hj Hij. added Hi; added Hj.
      * exact (HP _ _ _ _ _ _ Hi Hj Hij).
      * exact (Hvis _ _ _ Hi).
      * apply Hlevel in Hj. simpl in Hj. lia.
      * lia.
Qed.

(** Every address requested after the seed page is a member of the set
    the call returns. *)
Theorem requested_in_result (domain : string) (depth : Z)
    (filterFn : string -> bool) (w : W) (result : JSSet.t) (s' : io) :
  crawl domain depth filterFn (start w) = (inr result, s') ->
  forall i V rs url,
    In (Batch i V rs) (history s') -> i <> 0 ->
    In url (map fst rs) -> In url result.
Proof.
  pose (I := fun (i : Z) (links allLinks : JSSet.t) (h : list event) =>
    incl links allLinks
    /\ forall j Vj (rsj : list (string * (E + AxiosResponse))),
         In (Batch j Vj rsj) h -> j <> 0 -> incl (map fst rsj) allLinks).
  pose (Q := fun (res : thrown + JSSet.t) (h : list event) =>
    forall r, res = inr r ->
              forall j Vj (rsj : list (string * (E + AxiosResponse))),
                In (Batch j Vj rsj) h -> j <> 0 -> incl (map fst rsj) r).
  intros Hrun i V rs url Hb Hi Hin.
  refine (crawl_rule domain depth filterFn I Q _ _ _ _ _ _ _ w (inr result) s'
            Hrun result eq_refl i V rs Hb Hi url Hin).
  - intros _ r Hr. discriminate.
  - intros _ r _ j Vj rsj [].
  - intros e _ r Hr. discriminate.
  - intros mainPage _. split.
    + intros u Hu. exact (proj1 (JSSetFacts.In_of_list _ _) Hu).
    + intros j Vj rsj [Hb0 | [Hb0 | []]] Hj; inversion Hb0. congruence.
  - intros i0 links allLinks h [_ HI] _ r Hr. injection Hr as <-. exact HI.
  - intros i0 links allLinks h rs0 url0 e _ _ _ _ r Hr. discriminate.
  - intros i0 links allLinks h rs0 [Hfr HI] _ <- _ N. split.
    + intros u Hu. apply JSSetFacts.In_difference in Hu.
      apply JSSetFacts.In_add_all. left. tauto.
    + intros j Vj rsj Hb0 Hj. added Hb0.
      * eapply incl_tran; [exact (HI _ _ _ Hb0 Hj) | apply incl_add_all].
      * eapply incl_tran; [exact Hfr | apply incl_add_all].
Qed.

(** The set the call returns after fetching the seed page is exactly the
    union of the sets of the pages its requests resolved with. *)
Theorem result_is_union (domain : string) (depth : Z)
    (filterFn : string -> bool) (w : W) (result : JSSet.t) (s' : io) :
  depth <> 0 ->
  crawl domain depth filterFn (start w) = (inr result, s') ->
  forall url,
    In url result
    <-> exists i V rs url' page,
          In (Batch i V rs) (history s')
          /\ In (url', inr page) rs
          /\ In url (links_on page filterFn).
Proof.
  pose (found := fun (h : list event) (url : string) =>
    exists i V rs url' page,
      In (Batch i V rs) h /\ In (url', inr page) rs
      /\ In url (links_on page filterFn)).
  pose (I := fun (i : Z) (links allLinks : JSSet.t) (h : list event) =>
    forall url, found h url -> In url allLinks).
  pose (Q := fun (res : thrown + JSSet.t) (h : list event) =>
    forall r, res = inr r -> forall url, found h url -> In url r).
  intros Hdepth Hrun url. split.
  - exact (crawl_members axios_get isURL cheerio_a domain depth filterFn w
             result s' Hdepth Hrun url).
  - refine (crawl_rule domain depth filterFn I Q _ _ _ _ _ _ _ w (inr result) s'
              Hrun result eq_refl url).
    + intros _ r Hr. discriminate.
    + intros _ r _ u [i [V [rs [url' [page [[] _]]]]]].
    + intros e _ r Hr. discriminate.
    + intros mainPage _ u [i [V [rs [url' [page [Hb [Hin Hu]]]]]]].
      destruct Hb as [Hb | [Hb | []]]; inversion Hb; subst.
      destruct Hin as [Hin | []]. inversion Hin; subst. exact Hu.
    + intros i links allLinks h HI _ r Hr. injection Hr as <-. exact HI.
    + intros i links allLinks h rs url0 e _ _ _ _ r Hr. discriminate.
    + intros i links allLinks h rs HI _ _ _ N u
        [j [V [rs1 [url' [page [Hb [Hin Hu]]]]]]].
      apply JSSetFacts.In_add_all. added Hb.
      * right. apply HI. exists j, V, rs1, url', page. auto.
      * left. apply In_newLinkSet. exists (links_on page filterFn).
        split; [| exact Hu].
        apply in_map_iff. exists page. split; [reflexivity |].
        apply fulfilled_In. exists url'. exact Hin.
Qed.

(** After the seed page no address is requested twice: a batch holds
    every address once, and two batches of different levels of the loop
    share no address. *)
Theorem no_repeated_request (domain : string) (depth : Z)
    (filterFn : string -> bool) (w : W) (res : thrown + JSSet.t) (s' : io) :
  crawl domain depth filterFn (start w) = (res, s') ->
  (forall i V rs, In (Batch i V rs) (history s') -> NoDup (map fst rs))
  /\ (forall i j V V' rs rs' url,
         In (Batch i V rs) (history s') ->
         In (Batch j V' rs') (history s') ->
         i <> 0 -> i < j ->
         In url (map fst rs) -> ~ In url (map fst rs')).
Proof.
  pose (P := fun h : list event =>
    (forall i V (rs : list (string * (E + AxiosResponse))),
        In (Batch i V rs) h -> NoDup (map fst rs))
    /\ (forall i j V V' (rs rs' : list (string * (E + AxiosResponse))) url,
           In (Batch i V rs) h -> In (Batch j V' rs') h ->
           i <> 0 -> i < j ->
           In url (map fst rs) -> ~ In url (map fst rs'))).
  pose (I := fun (i : Z) (links allLinks : JSSet.t) (h : list event) =>
    (forall ev, In ev h -> level_of ev < i)
    /\ NoDup links
    /\ incl links allLinks
    /\ (forall j Vj (rsj : list (string * (E + AxiosResponse))) url,
           In (Batch j Vj rsj) h -> j <> 0 -> In url (map fst rsj) ->
           In url allLinks /\ ~ In url links)
    /\ P h).
  assert (Hone : forall (url : string) (r : E + AxiosResponse),
             NoDup (map fst [(url, r)])).
  { intros url r. simpl. constructor; [intros [] | constructor]. }
  intros Hrun.
  refine (crawl_rule domain depth filterFn I (fun _ h => P h)
            _ _ _ _ _ _ _ w res s' Hrun).
  - intros _. split; [intros i V rs [] | intros i j V V' rs rs' url []].
  - intros _. split; [intros i V rs [] | intros i j V V' rs rs' url []].
  - intros e _. split.
    + intros i V rs [Hb | []]. inversion Hb. apply Hone.
    + intros i j V V' rs rs' url [Hi | []] [Hj | []] _ Hlt.
      inversion Hi; inversion Hj; lia.
  - intros mainPage _. split; [| split; [| split; [| split; [| split]]]].
    + intros ev [<- | [<- | []]]; simpl; lia.
    + apply JSSetFacts.NoDup_of_list.
    + intros u Hu. exact (proj1 (JSSetFacts.In_of_list _ _) Hu).
    + intros j Vj rsj url [Hb | [Hb | []]] Hj; inversion Hb. congruence.
    + intros i V rs [Hb | [Hb | []]]; inversion Hb. apply Hone.
    + intros i j V V' rs rs' url [Hi | [Hi | []]] [Hj | [Hj | []]] _ Hlt;
        inversion Hi; inversion Hj; lia.
  - intros i links allLinks h [_ [_ [_ [_ HP]]]] _. exact HP.
  - intros i links allLinks h rs url e [Hlevel [Hnd [Hfr [Hreq [HP1 HP2]]]]]
      Hlt <- _.
    split.
    + intros i1 V rs1 Hb. added Hb; [exact (HP1 _ _ _ Hb) | exact Hnd].
    + intros i1 j V V' rs1 rs2 u Hi Hj Hi0 Hij Hu. added Hi; added Hj.
      * exact (HP2 _ _ _ _ _ _ _ Hi Hj Hi0 Hij Hu).
      * exact (proj2 (Hreq _ _ _ _ Hi Hi0 Hu)).
      * apply Hlevel in Hj. simpl in Hj. lia.
      * lia.
  - intros i links allLinks h rs [Hlevel [Hnd [Hfr [Hreq [HP1 HP2]]]]]
      Hlt <- _ N.
    pose proof (reset_i_ge depth i (map fst rs) Hlt) as Hreset.
    split; [| split; [| split; [| split; [| split]]]].
    + intros ev Hev. added Hev; simpl; [apply Hlevel in Hev |..]; lia.
    + apply JSSetFacts.NoDup_difference, NoDup_newLinkSet_pages.
    + intros u Hu. apply JSSetFacts.In_difference in Hu.
      apply JSSetFacts.In_add_all. left. tauto.
    + intros j Vj rsj u Hb Hj Hu.
      rewrite JSSetFacts.In_add_all, JSSetFacts.In_difference.
      added Hb.
      * destruct (Hreq _ _ _ _ Hb Hj Hu) as [Hin _]. tauto.
      * apply Hfr in Hu. tauto.
    + intros i1 V rs1 Hb. added Hb; [exact (HP1 _ _ _ Hb) | exact Hnd].
    + intros i1 j V V' rs1 rs2 u Hi Hj Hi0 Hij Hu. added Hi; added Hj.
      * exact (HP2 _ _ _ _ _ _ _ Hi Hj Hi0 Hij Hu).
      * exact (proj2 (Hreq _ _ _ _ Hi Hi0 Hu)).
      * apply Hlevel in Hj. simpl in Hj. lia.
      * lia.
Qed.

Lemma rounds_app (h h' : list event) :
  rounds (h ++ h') = (rounds h + rounds h')%nat.
Proof.
  induction h as [| [i V rs | i links] h IH]; simpl; congruence.
Qed.

(** The depth bounds the work: a call makes at most [depth] rounds of
    requests (one when [depth] is below 1), and the levels of its
    batches lie between 0 and [depth - 1]. *)
Theorem rounds_bounded (domain : string) (depth : Z)
    (filterFn : string -> bool) (w : W) (res : thrown + JSSet.t) (s' : io) :
  crawl domain depth filterFn (start w) = (res, s') ->
  Z.of_nat (rounds (history s')) <= Z.max 1 depth
  /\ forall i V rs,
       In (Batch i V rs) (history s') -> 0 <= i < Z.max 1 depth.
Proof.
  pose (P := fun h : list event =>
    Z.of_nat (rounds h) <= Z.max 1 depth
    /\ forall i V (rs : list (string * (E + AxiosResponse))),
         In (Batch i V rs) h -> 0 <= i < Z.max 1 depth).
  pose (I := fun (i : Z) (links allLinks : JSSet.t) (h : list event) =>
    1 <= i /\ Z.of_nat (rounds h) <= i /\ P h).
  intros Hrun.
  refine (crawl_rule domain depth filterFn I (fun _ h => P h)
            _ _ _ _ _ _ _ w res s' Hrun).
  - intros _. split; [simpl; lia | intros i V rs []].
  - intros _. split; [simpl; lia | intros i V rs []].
  - intros e _. split; [simpl; lia |].
    intros i V rs [Hb | []]. inversion Hb. lia.
  - intros mainPage _. split; [lia | split; [simpl; lia | split]].
    + simpl. lia.
    + intros i V rs [Hb | [Hb | []]]; inversion Hb. lia.
  - intros i links allLinks h [_ [_ HP]] _. exact HP.
  - intros i links allLinks h rs url e [Hi [Hr [HP1 HP2]]] Hlt _ _. split.
    + rewrite rounds_app. simpl. lia.
    + intros j V rs1 Hb. added Hb; [exact (HP2 _ _ _ Hb) | lia].
  - intros i links allLinks h rs [Hi [Hr [HP1 HP2]]] Hlt _ _ N.
    pose proof (reset_i_ge depth i links Hlt) as Hreset.
    split; [lia | split; [| split]].
    + rewrite rounds_app. simpl. lia.
    + rewrite rounds_app. simpl. lia.
    + intros j V rs1 Hb. added Hb; [exact (HP2 _ _ _ Hb) | lia].
Qed.

(** The requests of a level of the loop are the frontier the level
    before it left, address by address and in its order. *)
Theorem frontier_is_requested (domain : string) (depth : Z)
    (filterFn : string -> bool) (w : W) (res : thrown + JSSet.t) (s' : io) :
  crawl domain depth filterFn (start w) = (res, s') ->
  forall i V rs,
    In (Batch i V rs) (history s') -> i <> 0 ->
    In (Frontier (i - 1) (map fst rs)) (history s').
Proof.
  pose (P := fun h : list event =>
    forall i V (rs : list (string * (E + AxiosResponse))),
      In (Batch i V rs) h -> i <> 0 ->
      In (Frontier (i - 1) (map fst rs)) h).
  pose (I := fun (i : Z) (links allLinks : JSSet.t) (h : list event) =>
    (i < depth -> In (Frontier (i - 1) links) h) /\ P h).
  intros Hrun.
  refine (crawl_rule domain depth filterFn I (fun _ h => P h)
            _ _ _ _ _ _ _ w res s' Hrun).
  - intros _ i V rs [].
  - intros _ i V rs [].
  - intros e _ i V rs [Hb | []] Hi. inversion Hb. congruence.
  - intros mainPage _. split.
    + intros _. right. left. reflexivity.
    + intros i V rs [Hb | [Hb | []]] Hi; inversion Hb. congruence.
  - intros i links allLinks h [_ HP] _. exact HP.
  - intros i links allLinks h rs url e [Hprev HP] Hlt <- _ j V rs1 Hb Hj.
    apply in_or_app. left. added Hb; [exact (HP _ _ _ Hb Hj) | exact (Hprev Hlt)].
  - intros i links allLinks h rs [Hprev HP] Hlt <- _ N. split.
    + intros Hnext. apply in_or_app. right. right. left.
      assert (Hsame : reset_i depth i (map fst rs) = i).
      { unfold reset_i in *.
        destruct (Nat.eqb (JSSet.size (map fst rs)) 0); [lia | reflexivity]. }
      rewrite Hsame. f_equal. lia.
    + intros j V rs1 Hb Hj. apply in_or_app. left.
      added Hb; [exact (HP _ _ _ Hb Hj) | exact (Hprev Hlt)].
Qed.

(** A call fails in two ways only.  It throws when the seed address is
    not well formed, before any request.  It is rejected with the failure
    of a request of its last batch: nothing is requested after a batch
    with a rejected request.  When the seed address is well formed and no
    request of the run is rejected, the call returns a set. *)
Theorem failure_origin (domain : string) (depth : Z)
    (filterFn : string -> bool) (w : W) (res : thrown + JSSet.t) (s' : io) :
  crawl domain depth filterFn (start w) = (res, s') ->
  (forall e,
      res = inl (Throw e) ->
      isURL (String.append "http://" domain) = false
      /\ e = Error (String.append "Invalid url: "
                                  (String.append "http://" domain))
      /\ history s' = [])
  /\ (forall e,
         res = inl (Reject e) ->
         exists h i V rs url,
           history s' = h ++ [Batch i V rs] /\ In (url, inl e) rs)
  /\ (isURL (String.append "http://" domain) = true ->
      (forall i V rs url e,
          In (Batch i V rs) (history s') -> ~ In (url, inl e) rs) ->
      exists result, res = inr result).
Proof.
  pose (url := String.append "http://" domain).
  pose (Q := fun (res : thrown + JSSet.t) (h : list event) =>
    (forall e, res = inl (Throw e) ->
               isURL url = false
               /\ e = Error (String.append "Invalid url: " url)
               /\ h = [])
    /\ (forall e, res = inl (Reject e) ->
                  exists h0 i V (rs : list (string * (E + AxiosResponse))) u,
                    h = h0 ++ [Batch i V rs] /\ In (u, inl e) rs)).
  intros Hrun.
  assert (HQ : Q res (history s')).
  { refine (crawl_rule domain depth filterFn (fun _ _ _ _ => True) Q
              _ _ _ _ _ _ _ w res s' Hrun).
    - intros Hurl. split; intros e He; [| discriminate].
      injection He as <-. auto.
    - intros _. split; intros e He; discriminate.
    - intros e _. split; intros e0 He; [discriminate |].
      injection He as <-. exists [], 0, JSSet.empty, [(url, inl e)], url.
      split; [reflexivity | now left].
    - intros mainPage _. exact Logic.I.
    - intros i links allLinks h _ _. split; intros e He; discriminate.
    - intros i links allLinks h rs u e _ _ _ Hin.
      split; intros e0 He; [discriminate |].
      injection He as <-. exists h, i, allLinks, rs, u. auto.
    - intros i links allLinks h rs _ _ _ _ N. exact Logic.I. }
  destruct HQ as [Hthrow Hreject].
  split; [exact Hthrow | split; [exact Hreject |]].
  intros Hurl Hok. destruct res as [[e | e] | result].
  - destruct (Hthrow e eq_refl) as [Hno _]. fold url in Hurl. congruence.
  - destruct (Hreject e eq_refl) as [h [i [V [rs [u [Hh Hin]]]]]].
    exfalso. apply (Hok i V rs u e); [| exact Hin].
    rewrite Hh. apply in_or_app. right. now left.
  - exists result. reflexivity.
Qed.

(** Once the seed page is fetched the call is the loop, entered in a
    state that does not depend on the depth. *)
Lemma crawl_enters_loop (domain : string) (filterFn : string -> bool)
    (w w1 : W) (mainPage : AxiosResponse) :
  let url := String.append "http://" domain in
  isURL url = true ->
  axios_get url w = (inr mainPage, w1) ->
  exists s1,
    world s1 = w1
    /\ history s1
       = [Batch 0 JSSet.empty [(url, inr mainPage)];
          Frontier 0 (JSSet.of_list (links_on mainPage filterFn))]
    /\ forall depth,
         depth <> 0 ->
         crawl domain depth filterFn (start w)
         = loop depth filterFn 1
                (JSSet.of_list (links_on mainPage filterFn))
                (links_on mainPage filterFn) s1.
Proof.
  intros url Hurl Hget.
  pose (s0 := {| world := w1;
                 history := [Batch 0 JSSet.empty [(url, @inr E _ mainPage)]];
                 console := [] |}).
  destruct (queueLinks_spec cheerio_a mainPage filterFn s0)
    as [sq [Hq [Hw Hh]]].
  exists {| world := world sq;
            history := history sq
                       ++ [Frontier 0 (JSSet.of_list (links_on mainPage filterFn))];
            console := console sq |}.
  split; [exact Hw | split; [simpl; rewrite Hh; reflexivity |]].
  intros depth Hdepth. unfold crawl. fold url. rewrite Hurl. cbn [negb].
  destruct (Z.eqb_spec depth 0) as [H0 | _]; [contradiction |].
  unfold bind at 1. unfold get. cbn [world start history console app].
  rewrite Hget. fold s0. unfold bind at 1. rewrite Hq.
  reflexivity.
Qed.

(** A seed page that yields no link (a status other than 200, no anchor,
    or a filter that accepts none) ends the crawl: the call returns the
    empty set, whatever the depth, and the seed page is its only
    request. *)
Theorem seed_without_links (domain : string) (depth : Z)
    (filterFn : string -> bool) (w w1 : W) (mainPage : AxiosResponse) :
  let seed := String.append "http://" domain in
  isURL seed = true ->
  depth <> 0 ->
  axios_get seed w = (inr mainPage, w1) ->
  links_on mainPage filterFn = [] ->
  exists s',
    crawl domain depth filterFn (start w) = (inr [], s')
    /\ world s' = w1
    /\ history s'
       = [Batch 0 JSSet.empty [(seed, inr mainPage)]; Frontier 0 []]
         ++ (if 1 <? depth then [Batch 1 [] []; Frontier 1 []] else []).
Proof.
  intros seed Hurl Hdepth Hget Hnone.
  destruct (crawl_enters_loop domain filterFn w w1 mainPage Hurl Hget)
    as [s1 [Hw [Hh Hc]]].
  fold seed in Hh. rewrite Hnone in Hc, Hh.
  change (JSSet.of_list []) with (@nil string) in Hc, Hh.
  rewrite (Hc depth Hdepth), loop_iteration.
  destruct (Z.ltb_spec 1 depth) as [Hlt | Hge];
    destruct (Z_lt_dec 1 depth) as [Hlt' | Hge']; try lia.
  - pose proof (level_spec axios_get cheerio_a 1 [] [] filterFn s1) as Hlevel.
    simpl issue in Hlevel. cbn [fst snd fulfilled map] in Hlevel.
    match type of Hlevel with
    | context [JSSet.difference ?N ?V] =>
        change (JSSet.difference N V) with (@nil string) in Hlevel;
        change (JSSet.add_all N V) with (@nil string) in Hlevel
    end.
    destruct Hlevel as [s2 [Hw2 [[url [e [_ [[] _]]]] | [_ [Hl Hh2]]]]].
    unfold bind. rewrite Hl. cbn [fst snd]. rewrite loop_iteration.
    destruct (Z_lt_dec (reset_i depth 1 [] + 1) depth) as [Hlt2 | _];
      [unfold reset_i in Hlt2; simpl in Hlt2; lia |].
    exists s2. split; [reflexivity | split; [congruence |]].
    rewrite Hh2, Hh. reflexivity.
  - exists s1. split; [reflexivity | split; [exact Hw |]].
    rewrite Hh. reflexivity.
Qed.

(** With a depth of 1, and with a negative depth, the call makes the
    request for the seed page and no other, and returns the set of that
    page. *)
Theorem single_request (domain : string) (depth : Z)
    (filterFn : string -> bool) (w w1 : W) (mainPage : AxiosResponse) :
  let seed := String.append "http://" domain in
  isURL seed = true ->
  depth <> 0 -> depth <= 1 ->
  axios_get seed w = (inr mainPage, w1) ->
  exists s',
    crawl domain depth filterFn (start w)
    = (inr (links_on mainPage filterFn), s')
    /\ world s' = w1
    /\ history s'
       = [Batch 0 JSSet.empty [(seed, inr mainPage)];
          Frontier 0 (JSSet.of_list (links_on mainPage filterFn))].
Proof.
  intros seed Hurl Hdepth Hle Hget.
  destruct (crawl_enters_loop domain filterFn w w1 mainPage Hurl Hget)
    as [s1 [Hw [Hh Hc]]].
  rewrite (Hc depth Hdepth), loop_iteration.
  destruct (Z_lt_dec 1 depth) as [Hlt | _]; [lia |].
  exists s1. split; [reflexivity | split; assumption].
Qed.

(** One more level never loses an address: from the same state, the
    loop with a depth one greater returns a superset. *)
Lemma loop_deeper (depth : Z) (filterFn : string -> bool) (n : nat) :
  forall i links allLinks s result result' s1 s2,
    n = Z.to_nat (depth + 1 - i) ->
    loop depth filterFn i links allLinks s = (inr result, s1) ->
    loop (depth + 1) filterFn i links allLinks s = (inr result', s2) ->
    incl result result'.
Proof.
  induction n as [n IH] using lt_wf_ind.
  intros i links allLinks s result result' s1 s2 Hn Hd Hd1.
  rewrite loop_iteration in Hd, Hd1.
  destruct (Z_lt_dec i depth) as [Hlt | Hge];
    destruct (Z_lt_dec i (depth + 1)) as [Hlt1 | Hge1]; try lia.
  - unfold bind in Hd, Hd1.
    destruct (level i links allLinks filterFn s) as [[e | [F' V']] s0];
      [discriminate |].
    cbn [fst snd] in Hd, Hd1. unfold reset_i in Hd, Hd1.
    destruct (Nat.eqb (JSSet.size links) 0).
    + rewrite loop_iteration in Hd, Hd1.
      destruct (Z_lt_dec (depth + 1) depth); [lia |].
      destruct (Z_lt_dec (depth + 1 + 1) (depth + 1)); [lia |].
      injection Hd as <- _. injection Hd1 as <- _. apply incl_refl.
    + eapply (IH (Z.to_nat (depth + 1 - (i + 1)))); [lia | reflexivity | |];
        eassumption.
  - injection Hd as <- _. unfold bind in Hd1.
    destruct (level_spec axios_get cheerio_a i links allLinks filterFn s)
      as [s0 [_ [[url [e [Hl _]]] | [_ [Hl _]]]]]; rewrite Hl in Hd1;
      [discriminate |].
    cbn [fst snd] in Hd1. rewrite loop_iteration in Hd1.
    destruct (Z_lt_dec (reset_i (depth + 1) i links + 1) (depth + 1)) as [Hlt2 | _].
    { pose proof (reset_i_ge (depth + 1) i links Hlt1). lia. }
    injection Hd1 as <- _. apply incl_add_all.
  - injection Hd as <- _. injection Hd1 as <- _. apply incl_refl.
Qed.

(** Crawling one level deeper never loses an address: from the same
    world, every member of the set returned with a depth of 1 or more is
    a member of the set returned with the next depth. *)
Theorem deeper_is_superset (domain : string) (depth : Z)
    (filterFn : string -> bool) (w : W)
    (result result' : JSSet.t) (s1 s2 : io) :
  1 <= depth ->
  crawl domain depth filterFn (start w) = (inr result, s1) ->
  crawl domain (depth + 1) filterFn (start w) = (inr result', s2) ->
  incl result result'.
Proof.
  intros Hdepth Hd Hd1.
  destruct (crawl_cases axios_get isURL cheerio_a domain depth filterFn w)
    as [[_ Hc] | [[_ [H0 _]] | [[_ [_ [e [w1 [_ Hc]]]]]
        | [Hurl [_ [mainPage [w1 [_ [Hget _]]]]]]]]];
    try (rewrite Hc in Hd; discriminate); try lia.
  destruct (crawl_enters_loop domain filterFn w w1 mainPage Hurl Hget)
    as [s0 [_ [_ Hc]]].
  rewrite (Hc depth) in Hd by lia. rewrite (Hc (depth + 1)) in Hd1 by lia.
  exact (loop_deeper depth filterFn _ _ _ _ _ _ _ _ _ eq_refl Hd Hd1).
Qed.

End CrawlerRuns.

(** ** Further properties of [queueLinks] *)

Lemma In_hrefs (links : list entry) (href : string) :
  In (Some href) (hrefs links)
  <-> exists n a,
        In n links /\ attribs n = Some a /\ lookup "href" a = Some href.
Proof.
  unfold hrefs. rewrite in_map_iff. split.
  - intros [n [Heq Hin]]. destruct (attribs n) as [a |] eqn:Ha; [| discriminate].
    exists n, a. auto.
  - intros [n [a [Hin [Ha Hl]]]]. exists n. rewrite Ha. auto.
Qed.

(** For a page of status 200 [queueLinks] logs nothing and leaves the
    state as it is; the set it returns holds every address once, and its
    members are exactly the [href]s of the elements of the selection that
    the filter accepts, read after the rewriting of the scheme.  The
    filter sees the link as the page has it, before the rewriting;
    elements without [href] and properties without [attribs] yield
    nothing. *)
Theorem queueLinks_ok {W E : Type} (cheerio_a : string -> list entry)
    (pageContent : AxiosResponse) (filterFn : string -> bool) (s : @io W E) :
  status pageContent = 200 ->
  exists urlSet,
    queueLinks cheerio_a pageContent filterFn s = (inr urlSet, s)
    /\ NoDup urlSet
    /\ forall url,
         In url urlSet
         <-> exists n a href,
               In n (cheerio_a (data pageContent))
               /\ attribs n = Some a
               /\ lookup "href" a = Some href
               /\ filterFn href = true
               /\ replace_prefix "https" "http" href = url.
Proof.
  intros H200. exists (links_on cheerio_a pageContent filterFn).
  split; [| split].
  - unfold queueLinks, links_on. rewrite H200. reflexivity.
  - apply links_on_NoDup.
  - intros url. rewrite In_links_on. split.
    + intros [_ [href [Hin [Hf Heq]]]]. apply In_hrefs in Hin.
      destruct Hin as [n [a [Hn [Ha Hl]]]]. exists n, a, href. auto.
    + intros [n [a [href [Hn [Ha [Hl [Hf Heq]]]]]]].
      split; [assumption |]. exists href.
      split; [apply In_hrefs; eauto | auto].
Qed.

(** The rewriting touches the links that start with [https] and no
    other (a relative link, an [http] or a [mailto] link is kept as it
    is); of those it replaces the five first characters by [http]; so the
    two spellings [https://R] and [http://R] of a link give the same
    address. *)
Theorem rewrite_scheme (href : string) :
  (secure_scheme href = false -> replace_prefix "https" "http" href = href)
  /\ (forall rest,
         href = String.append "https" rest ->
         replace_prefix "https" "http" href = String.append "http" rest)
  /\ replace_prefix "https" "http" (String.append "https://" href)
     = replace_prefix "https" "http" (String.append "http://" href).
Proof.
  split; [| split].
  - intros Hplain. unfold replace_prefix.
    destruct (strip_prefix "https" href) as [rest |] eqn:Hstrip; [| reflexivity].
    apply strip_prefix_app in Hstrip.
    assert (Hsecure : secure_scheme href = true).
    { apply prefix_app. exists rest. exact Hstrip. }
    congruence.
  - intros rest ->. unfold replace_prefix.
    rewrite (proj2 (strip_prefix_app "https" _ rest) eq_refl). reflexivity.
  - reflexivity.
Qed.

(** ** The further properties on the example sites *)

(** The page [to_a_b_gone]: four anchors, one without [href]. *)
Lemma queueLinks_ok_witness :
  status Example.to_a_b_gone = 200
  /\ exists urlSet,
       queueLinks Example.cheerio_a Example.to_a_b_gone Example.accept_all
         (Example.fresh Example.broken)
       = (inr urlSet, Example.fresh Example.broken)
       /\ NoDup urlSet
       /\ forall url,
            In url urlSet
            <-> exists n a href,
                  In n (Example.cheerio_a (data Example.to_a_b_gone))
                  /\ attribs n = Some a
                  /\ lookup "href" a = Some href
                  /\ Example.accept_all href = true
                  /\ replace_prefix "https" "http" href = url.
Proof.
  assert (H200 : status Example.to_a_b_gone = 200) by reflexivity.
  split; [exact H200 |].
  exact (queueLinks_ok Example.cheerio_a Example.to_a_b_gone Example.accept_all
           (Example.fresh Example.broken) H200).
Defined.

(** A relative link and a link with the secure scheme. *)
Lemma rewrite_scheme_witness :
  secure_scheme "/about" = false
  /\ replace_prefix "https" "http" "/about" = "/about"
  /\ replace_prefix "https" "http" "https://example.com/a"
     = "http://example.com/a".
Proof.
  assert (Hplain : secure_scheme "/about" = false) by reflexivity.
  split; [exact Hplain | split].
  - exact (proj1 (rewrite_scheme "/about") Hplain).
  - exact (proj1 (proj2 (rewrite_scheme "https://example.com/a"))
             "://example.com/a" eq_refl).
Defined.

(** On the site [shop], [allLinks] at level 1 is included in [allLinks]
    at level 2 and in the set returned. *)
Lemma visited_grows_witness :
  let run := Example.run Example.shop 5 in
  let level_1 := [(Example.b, inr Example.to_a_c)] in
  let level_2 := [(Example.a, inr Example.to_b);
                  (Example.c, inr Example.no_content)] in
  In (Batch 1 [Example.b] level_1) (history (snd run))
  /\ In (Batch 2 [Example.b; Example.a; Example.c] level_2) (history (snd run))
  /\ 1 < 2
  /\ fst run = inr [Example.b; Example.a; Example.c]
  /\ incl [Example.b] [Example.b; Example.a; Example.c].
Proof.
  intros run level_1 level_2.
  assert (H1 : In (Batch 1 [Example.b] level_1) (history (snd run))).
  { vm_compute. right. right. left. reflexivity. }
  assert (H2 : In (Batch 2 [Example.b; Example.a; Example.c] level_2)
                  (history (snd run))).
  { vm_compute. do 4 right. left. reflexivity. }
  assert (Hlt : 1 < 2) by reflexivity.
  assert (Hres : fst run = inr [Example.b; Example.a; Example.c]).
  { vm_compute. reflexivity. }
  repeat (split; [assumption |]).
  exact (proj1 (visited_grows Example.axios_get Example.isURL Example.cheerio_a
                  "example.com" 5 Example.accept_all Example.shop _ _
                  (surjective_pairing _))
           1 2 _ _ _ _ H1 H2 Hlt).
Defined.

(** On the site [shop], the addresses requested at level 2 are returned. *)
Lemma requested_in_result_witness :
  let run := Example.run Example.shop 5 in
  let level_2 := [(Example.a, inr Example.to_b);
                  (Example.c, inr Example.no_content)] in
  run = (inr [Example.b; Example.a; Example.c], snd run)
  /\ In (Batch 2 [Example.b; Example.a; Example.c] level_2) (history (snd run))
  /\ 2 <> 0
  /\ In Example.c (map fst level_2)
  /\ In Example.c [Example.b; Example.a; Example.c].
Proof.
  intros run level_2.
  assert (Hrun : run = (inr [Example.b; Example.a; Example.c], snd run)).
  { vm_compute. reflexivity. }
  assert (H2 : In (Batch 2 [Example.b; Example.a; Example.c] level_2)
                  (history (snd run))).
  { vm_compute. do 4 right. left. reflexivity. }
  assert (Hi : 2 <> 0) by discriminate.
  assert (Hin : In Example.c (map fst level_2)) by (right; left; reflexivity).
  repeat (split; [assumption |]).
  exact (requested_in_result Example.axios_get Example.isURL Example.cheerio_a
           "example.com" 5 Example.accept_all Example.shop _ _ Hrun
           2 _ _ Example.c H2 Hi Hin).
Defined.

(** On the site [shop], [c] is returned because a fetched page links to
    it. *)
Lemma result_is_union_witness :
  let run := Example.run Example.shop 5 in
  5 <> 0
  /\ run = (inr [Example.b; Example.a; Example.c], snd run)
  /\ (In Example.c [Example.b; Example.a; Example.c]
      <-> exists i V rs url' page,
            In (Batch i V rs) (history (snd run))
            /\ In (url', inr page) rs
            /\ In Example.c
                  (links_on Example.cheerio_a page Example.accept_all)).
Proof.
  intros run.
  assert (Hdepth : 5 <> 0) by discriminate.
  assert (Hrun : run = (inr [Example.b; Example.a; Example.c], snd run)).
  { vm_compute. reflexivity. }
  split; [exact Hdepth | split; [exact Hrun |]].
  exact (result_is_union Example.axios_get Example.isURL Example.cheerio_a
           "example.com" 5 Example.accept_all Example.shop _ _ Hdepth Hrun
           Example.c).
Defined.

(** On the site [shop], [b] is requested at level 1 and not again at
    level 2. *)
Lemma no_repeated_request_witness :
  let h := history (snd (Example.run Example.shop 5)) in
  let level_1 := [(Example.b, inr Example.to_a_c)] in
  let level_2 := [(Example.a, inr Example.to_b);
                  (Example.c, inr Example.no_content)] in
  In (Batch 1 [Example.b] level_1) h
  /\ In (Batch 2 [Example.b; Example.a; Example.c] level_2) h
  /\ 1 <> 0 /\ 1 < 2
  /\ In Example.b (map fst level_1)
  /\ ~ In Example.b (map fst level_2).
Proof.
  intros h level_1 level_2.
  assert (H1 : In (Batch 1 [Example.b] level_1) h).
  { vm_compute. right. right. left. reflexivity. }
  assert (H2 : In (Batch 2 [Example.b; Example.a; Example.c] level_2) h).
  { vm_compute. do 4 right. left. reflexivity. }
  assert (Hi : 1 <> 0) by discriminate.
  assert (Hlt : 1 < 2) by reflexivity.
  assert (Hin : In Example.b (map fst level_1)) by (left; reflexivity).
  repeat (split; [assumption |]).
  exact (proj2 (no_repeated_request Example.axios_get Example.isURL
                  Example.cheerio_a "example.com" 5 Example.accept_all
                  Example.shop _ _ (surjective_pairing _))
           1 2 _ _ _ _ Example.b H1 H2 Hi Hlt Hin).
Defined.

(** On the site [shop] with depth 5. *)
Lemma rounds_bounded_witness :
  let run := Example.run Example.shop 5 in
  run = (fst run, snd run)
  /\ Z.of_nat (rounds (history (snd run))) <= Z.max 1 5.
Proof.
  intros run.
  assert (Hrun : run = (fst run, snd run)) by apply surjective_pairing.
  split; [exact Hrun |].
  exact (proj1 (rounds_bounded Example.axios_get Example.isURL
                  Example.cheerio_a "example.com" 5 Example.accept_all
                  Example.shop _ _ Hrun)).
Defined.

(** On the site [shop], the requests of level 2 are the frontier of
    level 1. *)
Lemma frontier_is_requested_witness :
  let h := history (snd (Example.run Example.shop 5)) in
  let level_2 := [(Example.a, inr Example.to_b);
                  (Example.c, inr Example.no_content)] in
  In (Batch 2 [Example.b; Example.a; Example.c] level_2) h
  /\ 2 <> 0
  /\ In (Frontier (2 - 1) [Example.a; Example.c]) h.
Proof.
  intros h level_2.
  assert (H2 : In (Batch 2 [Example.b; Example.a; Example.c] level_2) h).
  { vm_compute. do 4 right. left. reflexivity. }
  assert (Hi : 2 <> 0) by discriminate.
  split; [exact H2 | split; [exact Hi |]].
  exact (frontier_is_requested Example.axios_get Example.isURL
           Example.cheerio_a "example.com" 5 Example.accept_all
           Example.shop _ _ (surjective_pairing _) 2 _ _ H2 Hi).
Defined.

(** On the site [broken], the call is rejected with the failure of the
    request for [gone]. *)
Lemma failure_origin_witness :
  let run := Example.run Example.broken 5 in
  fst run = inl (Reject "ECONNRESET")
  /\ exists h i V rs url,
       history (snd run) = h ++ [Batch i V rs]
       /\ In (url, inl "ECONNRESET") rs.
Proof.
  intros run.
  assert (Hres : fst run = inl (Reject "ECONNRESET")).
  { vm_compute. reflexivity. }
  split; [exact Hres |].
  exact (proj1 (proj2 (failure_origin Example.axios_get Example.isURL
                         Example.cheerio_a "example.com" 5 Example.accept_all
                         Example.broken _ _ (surjective_pairing _)))
           "ECONNRESET" Hres).
Defined.

(** A site whose seed page answers 204, crawled with depth 5. *)
Lemma seed_without_links_witness :
  let w := [(Example.home, inr Example.no_content)] in
  Example.isURL "http://example.com" = true
  /\ 5 <> 0
  /\ links_on Example.cheerio_a Example.no_content Example.accept_all = []
  /\ exists s',
       Example.run w 5 = (inr [], s')
       /\ world s' = w
       /\ history s'
          = [Batch 0 JSSet.empty [(Example.home, inr Example.no_content)];
             Frontier 0 []]
            ++ [Batch 1 [] []; Frontier 1 []].
Proof.
  intros w.
  assert (Hurl : Example.isURL (String.append "http://" "example.com") = true)
    by reflexivity.
  assert (Hdepth : 5 <> 0) by discriminate.
  assert (Hnone : links_on Example.cheerio_a Example.no_content
                    Example.accept_all = []) by reflexivity.
  split; [exact Hurl | split; [exact Hdepth | split; [exact Hnone |]]].
  exact (seed_without_links Example.axios_get Example.isURL Example.cheerio_a
           "example.com" 5 Example.accept_all w w Example.no_content
           Hurl Hdepth eq_refl Hnone).
Defined.

(** The site [shop] with a negative depth. *)
Lemma single_request_witness :
  Example.isURL "http://example.com" = true
  /\ -3 <> 0 /\ -3 <= 1
  /\ exists s',
       Example.run Example.shop (-3) = (inr [Example.b], s')
       /\ world s' = Example.shop
       /\ history s'
          = [Batch 0 JSSet.empty [(Example.home, inr Example.to_b)];
             Frontier 0 [Example.b]].
Proof.
  assert (Hurl : Example.isURL (String.append "http://" "example.com") = true)
    by reflexivity.
  assert (Hdepth : -3 <> 0) by discriminate.
  assert (Hle : -3 <= 1) by discriminate.
  split; [exact Hurl | split; [exact Hdepth | split; [exact Hle |]]].
  exact (single_request Example.axios_get Example.isURL Example.cheerio_a
           "example.com" (-3) Example.accept_all Example.shop Example.shop
           Example.to_b Hurl Hdepth Hle eq_refl).
Defined.

(** The site [backlink] with depths 1 and 2. *)
Lemma deeper_is_superset_witness :
  let shallow := Example.run Example.backlink 1 in
  let deep := Example.run Example.backlink (1 + 1) in
  1 <= 1
  /\ shallow = (inr [Example.b], snd shallow)
  /\ deep = (inr [Example.b; Example.home], snd deep)
  /\ incl [Example.b] [Example.b; Example.home].
Proof.
  intros shallow deep.
  assert (Hdepth : 1 <= 1) by discriminate.
  assert (H1 : shallow = (inr [Example.b], snd shallow)).
  { vm_compute. reflexivity. }
  assert (H2 : deep = (inr [Example.b; Example.home], snd deep)).
  { vm_compute. reflexivity. }
  repeat (split; [assumption |]).
  exact (deeper_is_superset Example.axios_get Example.isURL Example.cheerio_a
           "example.com" 1 Example.accept_all Example.backlink _ _ _ _
           Hdepth H1 H2).
Defined.
